(* ===== verification/_CoqProject ===== *)
-Q . S2P
Prelude.v
Paths.v
Os.v
Pillow.v
ProcessLogo.v
Examples.v
