(* ===== verification/Prelude.v ===== *)
(** * Verification of [src/scripts/process_logo.py]

    ** The program

    The repository is one Python script.  [create_logo_variants(input_path)]
    (lines 4-32) makes [public/images] with [os.makedirs(..., exist_ok=True)],
    opens the input with Pillow and converts it to RGBA, then for each entry
    of the dict [sizes = {'sm': 64, 'md': 128, 'lg': 256}] resizes it to a
    square with LANCZOS, saves it as [public/images/logo-<name>.png] in
    format PNG and prints [Created <path>]; last it saves a 32x32 resize as
    [public/images/favicon.ico] in format ICO and prints its line.  The
    [__main__] block (lines 34-49) computes the project root as
    [dirname(dirname(abspath(__file__)))], [os.chdir]s there, and runs the
    generator when [os.path.exists('logo.png')], printing a success line,
    or else prints two error lines.  The script talks to two libraries: the
    operating system (through [os], [os.path], [open] and [print]) and Pillow.

    ** The files

    - [Prelude] (this file): [PyM St E], the state-and-exception monad in
      which Python statements are written ([x <- m ;; k] in [py_scope]),
      with [runs_to] / [raises] for a statement that completes or raises and
      [preserves] for invariants; the equivalence [≡] of statements with
      [Proper] instances for the combinators; the hint databases [pym] and
      [fsdb] and the tactic [solve_preserves]; [guarantees G m], a relation
      [G] between the states before and after [m] whichever way it ends,
      with [solve_guarantees]; list lemmas shared below.
      An exception keeps the effects done before it: Python does not roll
      back, and the failure theorems depend on it.
    - [Paths] ([Module PosixPath]): [posixpath.join], [normpath],
      [dirname], [abspath] as string functions after CPython's
      [Lib/posixpath.py], and [resolve], the kernel's resolution of a path
      string against the working directory.
    - [Os] ([Module Os]): the state of a run ([state]: the filesystem as a
      [gmap] from absolute component lists to [Dir writable | File bytes],
      the working directory, the log of events, printed lines included);
      the exceptions ([OSError] with its errno, Pillow's and Python's);
      the calls [os.path.exists], [os.path.isdir], [os.mkdir],
      [os.makedirs] (CPython's [Lib/os.py], recursion with fuel), [open],
      [write], [os.remove], [os.chdir], [print]; every call refuses the
      empty name with [ENOENT] before resolving it, as the kernel does;
      the invariant [state_wf] (the filesystem is a tree whose inner nodes
      are directories and the working directory is one of them), preserved
      by every call; [frame T], "only the entries [T] names changed", with
      the entries each call changes.
    - [Pillow] ([Module Pillow]): the class [ImageLib], the interface the
      script relies on (decode, convert, resize, encode and their laws);
      [image_open], [image_convert], [image_resize] and [image_save] after
      [PIL/Image.py], on top of the class and of [Os] (open reads the file,
      save creates the file, writes, and removes it again when encoding
      fails); [RefImage], an instance that meets the laws.  An icon reads
      back at the size saved only for the sizes Pillow's ICO plugin writes
      ([ico_sizes]), and the law says no more than that.
    - [ProcessLogo] ([Module ProcessLogo]): the script.  [sizes],
      [variant_path], [favicon_path], [save_variant] (the loop body),
      [create_logo_variants], [main_body] and [main] are the source's lines
      written in [PyM]; [run_script] adds the interpreter's exit status.
      [generated r s] is the abstract result of a successful run: the
      missing directories made, then the four outputs written and
      announced in order.
    - [Examples] ([Module Examples]): a project [/proj] with a 300x150 RGB
      logo, run on [RefImage]; the witnesses apply each theorem there with
      its hypotheses checked by [vm_compute].

    The components interact only through the class [ImageLib] and the
    calls of [Os]: every theorem of [ProcessLogo] holds for every instance
    of [ImageLib], so for Pillow as far as it meets the laws.

    ** What is proved

    - Refinement (C1): from a well-formed state whose output paths are
      usable and whose input decodes, [create_logo_variants] completes
      with exactly [generated r s].
    - The entry point (C2-C4): exit status, filesystem and printed lines of
      the script for a good logo, a missing logo and an undecodable logo,
      started from any directory ([project_root] is where it moves); and
      (C15) for a script at [R/d/f], named by its absolute path or by its
      path from the working directory, [project_root] is [R].  The string
      lemmas behind C15 are in [Paths]: ['/'.join] and [str.split('/')]
      are inverse on names, [normpath] keeps a path of names, [dirname]
      drops its last name.
    - Outputs (C5-C8): every output decodes to RGBA at its exact target
      size; the favicon is an ICO container, not a PNG; writes and prints
      come in source order; nothing else on disk changes.
    - Failures (C9-C12): a missing or undecodable input, an output
      directory that cannot be made, a variant path that is a directory:
      what is raised and what the state is at that point.
    - Frame (C13): whatever the outcome, a run changes no entry but
      [public], [public/images] and the four outputs of the directory it
      runs in; the input and the script are never modified or removed.
    - Idempotence (C14).

    ** Bounds and fuel

    [os.makedirs] recurses on [dirname] of its argument; [makedirs] runs
    [makedirs_fuel] with fuel [1 + len(name)].  Each recursive call is on a
    strictly shorter string ([Os.makedirs_head_shorter]), so any larger
    fuel gives the same statement ([Os.makedirs_fuel_enough]): the fuel is
    never the reason a run stops.  Image sizes are [nat]: Python's integers
    do not wrap; the formats' own limits are [format_max_side].

    ** Not modelled

    Pillow's codecs and filters (only the laws of [ImageLib] are assumed of
    them), read permission and file modes other than a directory's write
    bit, symbolic links ([..] is resolved lexically, as for a tree without
    links), other processes touching the filesystem during the run, and
    the text of tracebacks (an escaping exception gives exit status 1).
    Pillow decodes lazily: [Image.open] reads the header and a truncated
    file fails only in [convert]; the model decodes in [image_open].  Both
    fail after [makedirs] and before any write, so the failure theorems
    describe either. *)

From stdpp Require Import base list.
From Stdlib Require Import Init.Byte.
From Stdlib Require Strings.Byte.

(** ** The Python execution monad

    A Python statement runs against a state and either completes normally
    with a value or raises an exception.  When it raises, the effects it has
    already performed stay in the state: Python has no rollback.  [PyM St E A]
    is this state-and-exception monad, with the state [St] and the exception
    type [E] left open here and fixed by [Os]. *)

Inductive outcome (E A : Type) : Type :=
  | Normal (a : A)
  | Raised (e : E).
Arguments Normal {E A} a.
Arguments Raised {E A} e.

Definition PyM (St E A : Type) : Type := St -> outcome E A * St.

Declare Scope py_scope.
Delimit Scope py_scope with py.

Section Monad.
Context {St E : Type}.

Definition ret {A} (a : A) : PyM St E A := fun s => (Normal a, s).

Definition bind {A B} (m : PyM St E A) (k : A -> PyM St E B) : PyM St E B :=
  fun s =>
    match m s with
    | (Normal a, s') => k a s'
    | (Raised e, s') => (Raised e, s')
    end.

(** [raise e] *)
Definition raise {A} (e : E) : PyM St E A := fun s => (Raised e, s).

(** [try: m  except e: h e]; the handler decides itself whether to
    re-raise, as [except OSError: ... raise] does. *)
Definition try_except {A} (m : PyM St E A) (h : E -> PyM St E A) : PyM St E A :=
  fun s =>
    match m s with
    | (Raised e, s') => h e s'
    | r => r
    end.

Definition gets {A} (f : St -> A) : PyM St E A := fun s => (Normal (f s), s).

Definition modify (f : St -> St) : PyM St E unit := fun s => (Normal tt, f s).

(** [for x in l: body(x)] *)
Fixpoint for_each {A} (l : list A) (body : A -> PyM St E unit) : PyM St E unit :=
  match l with
  | [] => ret tt
  | x :: l' => bind (body x) (fun _ => for_each l' body)
  end.

(** [m] run from [s] completes normally with [a] in state [s']. *)
Definition runs_to {A} (m : PyM St E A) (s : St) (a : A) (s' : St) : Prop :=
  m s = (Normal a, s').

(** [m] run from [s] raises [e], leaving the state [s']. *)
Definition raises {A} (m : PyM St E A) (s : St) (e : E) (s' : St) : Prop :=
  m s = (Raised e, s').

(** [P] is an invariant of [m]: whichever way [m] ends, the state it
    leaves satisfies [P] when the state it started from did. *)
Definition preserves {A} (P : St -> Prop) (m : PyM St E A) : Prop :=
  forall s, P s -> P (snd (m s)).
End Monad.

Notation "x <- m ;; k" := (bind m (fun x => k))
  (at level 100, m at next level, right associativity) : py_scope.
Notation "m ;; k" := (bind m (fun _ => k))
  (at level 100, right associativity) : py_scope.

Open Scope py_scope.

(** ** Hint databases of the development

    [pym] holds the rules that push an invariant through the monad's
    combinators; [fsdb] (filled by [Os]) the invariant lemmas of every
    operation of the operating system, so that [preserves] goals about a
    composed statement are closed by [eauto with pym fsdb]. *)

Create HintDb pym discriminated.
Create HintDb fsdb discriminated.

Section MonadLemmas.
Context {St E : Type}.

Lemma bind_normal {A B} (m : PyM St E A) (k : A -> PyM St E B) s a s' :
  runs_to m s a s' -> bind m k s = k a s'.
Proof. unfold runs_to, bind. by intros ->. Qed.

Lemma bind_raised {A B} (m : PyM St E A) (k : A -> PyM St E B) s e s' :
  raises m s e s' -> bind m k s = (Raised e, s').
Proof. unfold raises, bind. by intros ->. Qed.

Lemma runs_to_bind {A B} (m : PyM St E A) (k : A -> PyM St E B) s a s1 b s2 :
  runs_to m s a s1 -> runs_to (k a) s1 b s2 -> runs_to (bind m k) s b s2.
Proof. unfold runs_to. intros H1 H2. by rewrite (bind_normal _ _ _ _ _ H1). Qed.

Lemma raises_bind_l {A B} (m : PyM St E A) (k : A -> PyM St E B) s e s1 :
  raises m s e s1 -> raises (bind m k) s e s1.
Proof. apply bind_raised. Qed.

Lemma raises_bind_r {A B} (m : PyM St E A) (k : A -> PyM St E B) s a s1 e s2 :
  runs_to m s a s1 -> raises (k a) s1 e s2 -> raises (bind m k) s e s2.
Proof. unfold raises. intros H1 H2. by rewrite (bind_normal _ _ _ _ _ H1). Qed.

Lemma runs_to_ret {A} (a : A) s : runs_to (St:=St) (E:=E) (ret a) s a s.
Proof. reflexivity. Qed.

Lemma runs_to_try_ok {A} (m : PyM St E A) h s a s' :
  runs_to m s a s' -> runs_to (try_except m h) s a s'.
Proof. unfold runs_to, try_except. by intros ->. Qed.

Lemma runs_to_try_handled {A} (m : PyM St E A) h s e s1 a s2 :
  raises m s e s1 -> runs_to (h e) s1 a s2 -> runs_to (try_except m h) s a s2.
Proof. unfold raises, runs_to, try_except. by intros ->. Qed.

Lemma raises_try_handled {A} (m : PyM St E A) h s e s1 e' s2 :
  raises m s e s1 -> raises (h e) s1 e' s2 -> raises (try_except m h) s e' s2.
Proof. unfold raises, try_except. by intros ->. Qed.

Lemma raises_raise {A} (e : E) s : raises (St:=St) (A:=A) (raise e) s e s.
Proof. reflexivity. Qed.

Lemma runs_to_det {A} (m : PyM St E A) s a1 s1 a2 s2 :
  runs_to m s a1 s1 -> runs_to m s a2 s2 -> a1 = a2 /\ s1 = s2.
Proof. unfold runs_to. intros H1 H2. rewrite H1 in H2. by simplify_eq. Qed.

Lemma for_each_app {A} (l1 l2 : list A) (body : A -> PyM St E unit) s :
  for_each (l1 ++ l2) body s = bind (for_each l1 body) (fun _ => for_each l2 body) s.
Proof.
  revert s. induction l1 as [|x l1 IH]; intros s; [reflexivity|].
  cbn [for_each app]. unfold bind in *. destruct (body x s) as [[[]|e] s1]; [|reflexivity].
  rewrite IH. by destruct (for_each l1 body s1) as [[[]|] ?].
Qed.

(** Running a loop body that completes on every element completes the
    loop: the state is threaded through the elements in list order. *)
Lemma runs_to_for_each {A} (l : list A) (body : A -> PyM St E unit) (R : nat -> St -> Prop) s :
  R 0 s ->
  (forall i x s1, l !! i = Some x -> R i s1 ->
     exists s2, runs_to (body x) s1 tt s2 /\ R (S i) s2) ->
  exists s', runs_to (for_each l body) s tt s' /\ R (length l) s'.
Proof.
  revert R s. induction l as [|x l IH]; intros R s H0 Hstep; simpl.
  - exists s. split; [apply runs_to_ret|done].
  - destruct (Hstep 0 x s eq_refl H0) as (s1 & Hx & HR1).
    destruct (IH (fun i => R (S i)) s1 HR1) as (s' & Hl & HR').
    { intros i y s2 Hy HR. by apply (Hstep (S i)). }
    exists s'. split; [|done]. by eapply runs_to_bind.
Qed.

(** ** Statements that behave the same

    Two statements are equivalent when they do the same from every state.
    The combinators respect the equivalence, so that a statement can be
    replaced by an equivalent one inside a composed statement ([f_equiv],
    [setoid_rewrite]). *)

#[export] Instance pym_equiv {A} : Equiv (PyM St E A) := fun m1 m2 => forall s, m1 s = m2 s.

#[export] Instance pym_equivalence {A} : Equivalence (≡@{PyM St E A}).
Proof. split; repeat intro; congruence. Qed.

#[export] Instance bind_proper {A B} :
  Proper ((≡) ==> pointwise_relation A (≡) ==> (≡)) (@bind St E A B).
Proof.
  intros m1 m2 Hm k1 k2 Hk s. unfold bind. rewrite (Hm s).
  destruct (m2 s) as [[a|e] s1]; [apply Hk|done].
Qed.

#[export] Instance try_except_proper {A} :
  Proper ((≡) ==> pointwise_relation E (≡) ==> (≡)) (@try_except St E A).
Proof.
  intros m1 m2 Hm h1 h2 Hh s. unfold try_except. rewrite (Hm s).
  destruct (m2 s) as [[a|e] s1]; [done|apply Hh].
Qed.

#[export] Instance for_each_proper {A} (l : list A) :
  Proper (pointwise_relation A (≡) ==> (≡)) (@for_each St E A l).
Proof.
  intros b1 b2 Hb. induction l as [|x l IH]; simpl; [done|].
  apply bind_proper; [apply Hb|intros _; exact IH].
Qed.

Lemma runs_to_equiv {A} (m1 m2 : PyM St E A) s a s' :
  m1 ≡ m2 -> runs_to m1 s a s' <-> runs_to m2 s a s'.
Proof. unfold runs_to. intros Hm. by rewrite (Hm s). Qed.

(** ** Invariants through the combinators *)

Lemma preserves_ret {A} (P : St -> Prop) (a : A) : preserves (E:=E) P (ret a).
Proof. by intros s. Qed.

Lemma preserves_raise {A} (P : St -> Prop) (e : E) : preserves P (@raise St E A e).
Proof. by intros s. Qed.

Lemma preserves_gets {A} (P : St -> Prop) (f : St -> A) : preserves (E:=E) P (gets f).
Proof. by intros s. Qed.

Lemma preserves_bind {A B} P (m : PyM St E A) (k : A -> PyM St E B) :
  preserves P m -> (forall a, preserves P (k a)) -> preserves P (bind m k).
Proof.
  intros Hm Hk s Hs. unfold bind. specialize (Hm s Hs).
  destruct (m s) as [[a|e] s1]; simpl in *; [by apply Hk|done].
Qed.

Lemma preserves_try_except {A} P (m : PyM St E A) h :
  preserves P m -> (forall e, preserves P (h e)) -> preserves P (try_except m h).
Proof.
  intros Hm Hh s Hs. unfold try_except. specialize (Hm s Hs).
  destruct (m s) as [[a|e] s1]; simpl in *; [done|by apply Hh].
Qed.

Lemma preserves_if {A} (P : St -> Prop) (b : bool) (m1 m2 : PyM St E A) :
  preserves P m1 -> preserves P m2 -> preserves P (if b then m1 else m2).
Proof. by destruct b. Qed.

Lemma preserves_for_each {A} (P : St -> Prop) (l : list A) (body : A -> PyM St E unit) :
  (forall x, preserves P (body x)) -> preserves P (for_each l body).
Proof.
  intros Hb. induction l as [|x l IH]; simpl;
    [apply preserves_ret|by apply preserves_bind].
Qed.
End MonadLemmas.

#[export] Hint Resolve preserves_ret preserves_raise preserves_gets preserves_bind
  preserves_try_except preserves_if preserves_for_each : pym.

(** Close a [preserves] goal about a composed statement: go through its
    binds, handlers, loops and branches, and close each leaf with the
    invariant lemmas of [pym] and [fsdb]. *)
Ltac solve_preserves :=
  repeat match goal with
    | |- forall _, _ => intros
    | |- preserves _ (bind _ _) => apply preserves_bind
    | |- preserves _ (try_except _ _) => apply preserves_try_except
    | |- preserves _ (for_each _ _) => apply preserves_for_each
    | |- preserves _ (if ?b then _ else _) => destruct b
    | |- preserves _ (match ?x with _ => _ end) => destruct x
    | |- _ => solve [eauto with pym fsdb]
    end.

(** ** Guarantees

    [guarantees G m]: whichever way [m] ends, the state it leaves is
    related by [G] to the state it started from.  For a preorder [G] (a
    relation such as "changed only these entries") the guarantee goes
    through every combinator, as an invariant does, but it relates the
    two ends of a run instead of constraining each end alone. *)

Section Guarantees.
Context {St E : Type} (G : St -> St -> Prop) `{!PreOrder G}.

Definition guarantees {A} (m : PyM St E A) : Prop := forall s, G s (snd (m s)).

Lemma guarantees_ret {A} (a : A) : guarantees (ret a).
Proof. intros s. simpl. reflexivity. Qed.

Lemma guarantees_raise {A} (e : E) : guarantees (@raise St E A e).
Proof. intros s. simpl. reflexivity. Qed.

Lemma guarantees_gets {A} (f : St -> A) : guarantees (gets f).
Proof. intros s. simpl. reflexivity. Qed.

(** The step rule: the continuation may use what the first statement
    returned and the state it left. *)
Lemma guarantees_bind_at {A B} (m : PyM St E A) (k : A -> PyM St E B) s :
  G s (snd (m s)) -> (forall a s1, m s = (Normal a, s1) -> G s1 (snd (k a s1))) ->
  G s (snd (bind m k s)).
Proof.
  intros Hm Hk. unfold bind. destruct (m s) as [[a|e] s1] eqn:Hms; simpl in *; [|done].
  etrans; [exact Hm|]. by apply Hk.
Qed.

Lemma guarantees_bind {A B} (m : PyM St E A) (k : A -> PyM St E B) :
  guarantees m -> (forall a, guarantees (k a)) -> guarantees (bind m k).
Proof. intros Hm Hk s. apply guarantees_bind_at; [apply Hm|intros a s1 _; apply Hk]. Qed.

Lemma guarantees_try_except {A} (m : PyM St E A) h :
  guarantees m -> (forall e, guarantees (h e)) -> guarantees (try_except m h).
Proof.
  intros Hm Hh s. unfold try_except. specialize (Hm s).
  destruct (m s) as [[a|e] s1]; simpl in *; [done|]. etrans; [exact Hm|apply Hh].
Qed.

Lemma guarantees_if {A} (b : bool) (m1 m2 : PyM St E A) :
  guarantees m1 -> guarantees m2 -> guarantees (if b then m1 else m2).
Proof. by destruct b. Qed.

Lemma guarantees_for_each {A} (l : list A) (body : A -> PyM St E unit) :
  (forall x, x ∈ l -> guarantees (body x)) -> guarantees (for_each l body).
Proof.
  induction l as [|x l IH]; intros Hb; simpl; [apply guarantees_ret|].
  apply guarantees_bind; [apply Hb; left|intros _; apply IH; intros y Hy; apply Hb; by right].
Qed.
End Guarantees.

(** Close a [guarantees] goal about a composed statement: through its
    binds, handlers and branches, down to the calls, closed by [fsdb]. *)
Ltac solve_guarantees :=
  repeat match goal with
    | |- forall _, _ => intros
    | |- PreOrder _ => apply _
    | |- ?G ?s (snd (?m ?s)) => revert s; change (guarantees G m)
    | |- guarantees _ (bind _ _) => apply guarantees_bind
    | |- guarantees _ (try_except _ _) => apply guarantees_try_except
    | |- guarantees _ (ret _) => apply guarantees_ret
    | |- guarantees _ (raise _) => apply guarantees_raise
    | |- guarantees _ (gets _) => apply guarantees_gets
    | |- guarantees _ (if ?b then _ else _) => destruct b
    | |- guarantees _ (match ?x with _ => _ end) => destruct x
    | |- _ => solve [eauto with fsdb]
    end.

(** ** Generic list lemmas *)

Lemma removelast_snoc {A} (l : list A) (x : A) : removelast (l ++ [x]) = l.
Proof. apply removelast_last. Qed.

Lemma removelast_prefix_length {A} (l : list A) :
  l <> [] -> length (removelast l) < length l.
Proof.
  intros Hl. destruct l as [|x l _] using rev_ind; [done|].
  rewrite removelast_snoc, length_app. simpl. lia.
Qed.

(** Bytes compare by [Byte.eqb]; the instance lets [decide] and stdpp's
    list decisions ([prefix_of]) run on byte strings. *)
#[export] Instance byte_eq_dec : EqDecision byte.
Proof.
  intros x y. destruct (Byte.eqb x y) eqn:E;
    [left; by apply Byte.byte_dec_bl|right; by apply Byte.eqb_false].
Defined.

(** In a list without duplicates, the element at [i] is not among the
    first [i]. *)
Lemma NoDup_lookup_not_in_take {A} (l : list A) i x :
  NoDup l -> l !! i = Some x -> x ∉ take i l.
Proof.
  intros Hnd Hi Hin. apply list_elem_of_lookup in Hin as [j Hj].
  pose proof (lookup_lt_Some _ _ _ Hj) as Hlt. rewrite length_take in Hlt.
  rewrite lookup_take, decide_True in Hj by lia.
  pose proof (NoDup_lookup _ _ _ _ Hnd Hj Hi). lia.
Qed.

Lemma lookup_map_Some {A B} (f : A -> B) (l : list A) i x :
  l !! i = Some x -> map f l !! i = Some (f x).
Proof.
  revert i. induction l as [|y l IH]; intros [|i] Hi; simpl in *; try done.
  - by simplify_eq.
  - by apply IH.
Qed.

Lemma NoDup_take_of {A} (l : list A) i : NoDup l -> NoDup (take i l).
Proof. intros Hnd. rewrite <- (take_drop i l) in Hnd. by apply NoDup_app in Hnd as [? _]. Qed.
