(* ===== verification/Paths.v ===== *)
(** * Paths: the [posixpath] functions the script calls

    [process_logo.py] locates its project root with
    [os.path.dirname(os.path.abspath(__file__))] and refers to every file
    by a relative path string ([public/images], [logo.png], ...).  This
    file models the string functions of Python's [posixpath] module that
    these calls reach ([str.split], [str.join], [isabs], [join],
    [normpath], [dirname], [abspath]) over [String.string], following
    CPython's [Lib/posixpath.py], and the kernel's resolution of a path
    string against the working directory into absolute components. *)

From stdpp Require Import base list strings.
From Stdlib Require Import Ascii String.
From S2P Require Import Prelude.

Local Open Scope string_scope.

Module PosixPath.

Definition sep : ascii := "/"%char.

(** [s.split('/')]: the pieces between separators, empty ones kept
    ([''.split('/') == ['']], ['/a'.split('/') == ['', 'a']]). *)
Fixpoint split_sep (s : string) : list string :=
  match s with
  | EmptyString => [EmptyString]
  | String c rest =>
      if Ascii.eqb c sep then EmptyString :: split_sep rest
      else match split_sep rest with
           | [] => [String c EmptyString]
           | w :: ws => String c w :: ws
           end
  end.

(** ['/'.join(l)] *)
Fixpoint join_sep (l : list string) : string :=
  match l with
  | [] => EmptyString
  | [w] => w
  | w :: ws => w ++ String sep (join_sep ws)
  end.

(** [isabs(s)]: [s.startswith('/')] *)
Definition isabs (s : string) : bool :=
  match s with
  | String c _ => Ascii.eqb c sep
  | EmptyString => false
  end.

Fixpoint ends_with_sep (s : string) : bool :=
  match s with
  | EmptyString => false
  | String c EmptyString => Ascii.eqb c sep
  | String _ rest => ends_with_sep rest
  end.

(** [posixpath.join(a, b)] *)
Definition join (a b : string) : string :=
  if isabs b then b
  else if String.eqb a EmptyString || ends_with_sep a then a ++ b
  else a ++ String sep b.

Fixpoint slashes (n : nat) : string :=
  match n with
  | O => EmptyString
  | S n => String sep (slashes n)
  end.

(** The number of leading slashes [normpath] keeps: POSIX gives two
    leading slashes an implementation-defined meaning, so exactly two
    are kept, one or three and more become one. *)
Definition initial_slashes (s : string) : nat :=
  match s with
  | String c1 (String c2 (String c3 _)) =>
      if Ascii.eqb c1 sep then
        if Ascii.eqb c2 sep then (if Ascii.eqb c3 sep then 1 else 2) else 1
      else 0
  | String c1 (String c2 EmptyString) =>
      if Ascii.eqb c1 sep then (if Ascii.eqb c2 sep then 2 else 1) else 0
  | String c1 EmptyString => if Ascii.eqb c1 sep then 1 else 0
  | EmptyString => 0
  end.

(** The loop of [normpath] over the components, on the reversed list of
    components kept so far ([new_comps]). *)
Definition norm_step (absolute : bool) (acc : list string) (comp : string)
    : list string :=
  if String.eqb comp "" || String.eqb comp "." then acc
  else if negb (String.eqb comp "..") then comp :: acc
  else match acc with
       | [] => if absolute then [] else [comp]
       | last :: rest => if String.eqb last ".." then comp :: acc else rest
       end.

Definition norm_comps (absolute : bool) (comps : list string) : list string :=
  rev (fold_left (norm_step absolute) comps []).

(** [posixpath.normpath(path)] *)
Definition normpath (path : string) : string :=
  if String.eqb path "" then "."
  else
    let n := initial_slashes path in
    let body := join_sep (norm_comps (bool_decide (n <> 0)) (split_sep path)) in
    let p := slashes n ++ body in
    if String.eqb p "" then "." else p.

(** [s.rfind('/') + 1]: the length of the prefix up to and including the
    last separator, 0 when there is none. *)
Fixpoint after_last_sep (s : string) : nat :=
  match s with
  | EmptyString => 0
  | String c rest =>
      match after_last_sep rest with
      | O => if Ascii.eqb c sep then 1 else 0
      | S k => S (S k)
      end
  end.

Fixpoint all_sep (s : string) : bool :=
  match s with
  | EmptyString => true
  | String c rest => Ascii.eqb c sep && all_sep rest
  end.

(** [head.rstrip('/')] *)
Fixpoint rstrip_sep (s : string) : string :=
  match s with
  | EmptyString => EmptyString
  | String c rest =>
      let r := rstrip_sep rest in
      if String.eqb r EmptyString && Ascii.eqb c sep then EmptyString
      else String c r
  end.

(** [posixpath.dirname(p)] *)
Definition dirname (p : string) : string :=
  let head := substring 0 (after_last_sep p) p in
  if negb (String.eqb head EmptyString) && negb (all_sep head)
  then rstrip_sep head else head.

(** [os.getcwd()] for a working directory held as its components. *)
Definition getcwd (cwd : list string) : string := String sep (join_sep cwd).

(** [posixpath.abspath(path)] *)
Definition abspath (cwd : list string) (path : string) : string :=
  normpath (if isabs path then path else join (getcwd cwd) path).

(** The kernel's resolution of [path] against the working directory:
    [.] stays, [..] goes to the parent (the root is its own parent), empty
    components (doubled slashes) are skipped.  [resolve_step] works on the
    reversed list of components. *)
Definition resolve_step (acc : list string) (comp : string) : list string :=
  if String.eqb comp "" || String.eqb comp "." then acc
  else if String.eqb comp ".." then tail acc
  else comp :: acc.

Definition resolve (cwd : list string) (path : string) : list string :=
  rev (fold_left resolve_step (split_sep path)
         (if isabs path then [] else rev cwd)).

(** A component the kernel enters as a child: not empty, not [.], not
    [..]. *)
Definition plain_comp (c : string) : bool :=
  negb (String.eqb c "" || String.eqb c "." || String.eqb c "..").

(** A file or directory name: a plain component without a separator. *)
Fixpoint has_sep (s : string) : bool :=
  match s with
  | EmptyString => false
  | String c rest => Ascii.eqb c sep || has_sep rest
  end.

Definition name_ok (c : string) : bool := plain_comp c && negb (has_sep c).

Lemma fold_resolve_plain comps acc :
  forallb plain_comp comps = true ->
  fold_left resolve_step comps acc = (rev comps ++ acc)%list.
Proof.
  revert acc. induction comps as [|c comps IH]; intros acc Hp; [done|].
  simpl in Hp. apply andb_prop in Hp as [Hc Hp].
  unfold plain_comp in Hc. apply negb_true_iff, orb_false_iff in Hc as [Hc Hdd].
  apply orb_false_iff in Hc as [He Hd].
  simpl. unfold resolve_step at 2. rewrite He, Hd, Hdd. simpl.
  rewrite IH by done. by rewrite <- app_assoc.
Qed.

(** A relative path of plain components names the entries below the
    working directory. *)
Lemma resolve_relative cwd path :
  isabs path = false -> forallb plain_comp (split_sep path) = true ->
  resolve cwd path = (cwd ++ split_sep path)%list.
Proof.
  intros Ha Hp. unfold resolve. rewrite Ha, fold_resolve_plain by done.
  rewrite rev_app_distr, !rev_involutive. reflexivity.
Qed.

(** The empty name resolves to the working directory (the calls of
    [Os] refuse it before resolving). *)
Lemma resolve_empty cwd : resolve cwd "" = cwd.
Proof. unfold resolve. simpl. apply rev_involutive. Qed.

(** ** [str.split('/')] and ['/'.join] are inverse on names *)

(** stdpp makes [String.append] opaque to [simpl]; its two equations. *)
Lemma string_app_nil x : "" ++ x = x.
Proof. reflexivity. Qed.

Lemma string_app_cons c a x : String c a ++ x = String c (a ++ x).
Proof. reflexivity. Qed.

Lemma string_app_empty_r a : a ++ "" = a.
Proof. induction a as [|c a IH]; [done|]. by rewrite string_app_cons, IH. Qed.

Lemma string_app_assoc a b c : a ++ (b ++ c) = (a ++ b) ++ c.
Proof. induction a as [|x a IH]; [done|]. by rewrite !string_app_cons, IH. Qed.

Lemma split_sep_ne p : split_sep p <> [].
Proof. induction p as [|c p IH]; simpl; [done|]. repeat case_match; done. Qed.

Lemma split_sep_sep p : split_sep (String sep p) = "" :: split_sep p.
Proof. reflexivity. Qed.

Lemma split_sep_prefix a x :
  has_sep a = false ->
  split_sep (a ++ x) = match split_sep x with w :: ws => (a ++ w) :: ws | [] => [a] end.
Proof.
  induction a as [|c a IH]; intros Ha; rewrite ?string_app_nil, ?string_app_cons; simpl.
  - pose proof (split_sep_ne x). by destruct (split_sep x).
  - simpl in Ha. apply orb_false_iff in Ha as [Hc Ha]. rewrite Hc, IH by done.
    pose proof (split_sep_ne x). by destruct (split_sep x).
Qed.

Lemma split_join comps :
  comps <> [] -> Forall (fun c => has_sep c = false) comps -> split_sep (join_sep comps) = comps.
Proof.
  induction comps as [|w ws IH]; intros Hne Hall; [done|]. inversion Hall as [|? ? Hw Hws]; subst.
  destruct ws as [|w' ws].
  - change (join_sep [w]) with w. rewrite <- (string_app_empty_r w) at 1.
    rewrite split_sep_prefix by done. simpl. by rewrite string_app_empty_r.
  - change (join_sep (w :: w' :: ws)) with (w ++ String sep (join_sep (w' :: ws))).
    rewrite split_sep_prefix, split_sep_sep, IH by done. by rewrite string_app_empty_r.
Qed.

(** ** Lengths: [dirname] shortens a path

    [os.makedirs] recurses on [dirname] of its argument; these bounds are
    what make its recursion terminate. *)

Lemma after_last_sep_le p : after_last_sep p <= String.length p.
Proof.
  induction p as [|c p IH]; simpl; [lia|].
  destruct (after_last_sep p); [case_match|]; lia.
Qed.

Lemma length_prefix n p : String.length (substring 0 n p) <= n.
Proof.
  revert n. induction p as [|c p IH]; intros [|n]; simpl; try lia.
  specialize (IH n). lia.
Qed.

Lemma substring_empty n p : substring n 0 p = "".
Proof. revert n. induction p as [|c p IH]; intros [|n]; simpl; auto. Qed.

Lemma rstrip_sep_le p : String.length (rstrip_sep p) <= String.length p.
Proof. induction p as [|c p IH]; simpl; [lia|]. case_match; simpl; lia. Qed.

Lemma dirname_le p : String.length (dirname p) <= after_last_sep p.
Proof.
  unfold dirname. pose proof (length_prefix (after_last_sep p) p).
  case_match; [|done]. etrans; [apply rstrip_sep_le|done].
Qed.

(** ** [normpath] and [abspath] on paths made of names *)

Lemma fold_norm_plain absolute comps acc :
  forallb plain_comp comps = true ->
  fold_left (norm_step absolute) comps acc = (rev comps ++ acc)%list.
Proof.
  revert acc. induction comps as [|c comps IH]; intros acc Hp; [done|].
  simpl in Hp. apply andb_prop in Hp as [Hc Hp].
  unfold plain_comp in Hc. apply negb_true_iff, orb_false_iff in Hc as [Hc Hdd].
  apply orb_false_iff in Hc as [He Hd].
  simpl. unfold norm_step at 2. rewrite He, Hd, Hdd. simpl.
  rewrite IH by done. by rewrite <- app_assoc.
Qed.

Lemma names_plain comps :
  Forall (fun c => name_ok c = true) comps -> forallb plain_comp comps = true.
Proof.
  intros Hall. apply forallb_forall. intros c Hc. apply list_elem_of_In in Hc.
  rewrite Forall_forall in Hall. apply Hall, andb_prop in Hc as [? _]. done.
Qed.

Lemma names_no_sep comps :
  Forall (fun c => name_ok c = true) comps -> Forall (fun c => has_sep c = false) comps.
Proof.
  intros Hall. eapply Forall_impl; [exact Hall|].
  intros c Hc. apply andb_prop in Hc as [_ Hc]. by apply negb_true_iff.
Qed.

(** A name is not empty and does not start with a separator. *)
Lemma name_ok_cons c :
  name_ok c = true -> exists a r, c = String a r /\ Ascii.eqb a sep = false.
Proof.
  destruct c as [|a r]; [done|]. intros Hc. exists a, r. split; [done|].
  apply andb_prop in Hc as [_ Hc]. simpl in Hc. by destruct (Ascii.eqb a sep).
Qed.

Lemma join_sep_cons_name w ws :
  name_ok w = true -> exists a r, join_sep (w :: ws) = String a r /\ Ascii.eqb a sep = false.
Proof.
  intros Hw. destruct (name_ok_cons w Hw) as (a & r & -> & Ha).
  destruct ws; simpl; eauto.
Qed.

Lemma normpath_abs_names comps :
  comps <> [] -> Forall (fun c => name_ok c = true) comps ->
  normpath (String sep (join_sep comps)) = String sep (join_sep comps).
Proof.
  intros Hne Hall. destruct comps as [|w ws]; [done|].
  assert (Hw : name_ok w = true) by (by inversion Hall).
  unfold normpath. rewrite split_sep_sep, split_join by (done || by apply names_no_sep).
  destruct (join_sep_cons_name w ws Hw) as (a & r & Hj & Ha).
  assert (Hn : initial_slashes (String sep (join_sep (w :: ws))) = 1).
  { rewrite Hj. unfold initial_slashes. destruct r as [|b [|? ?]]; simpl; by rewrite Ha. }
  rewrite Hn, bool_decide_true by lia. unfold norm_comps. cbn [slashes].
  change (fold_left (norm_step true) ("" :: w :: ws) [])
    with (fold_left (norm_step true) (w :: ws) (norm_step true [] "")).
  replace (norm_step true [] "") with (@nil string) by reflexivity.
  rewrite fold_norm_plain by (by apply names_plain).
  rewrite app_nil_r, rev_involutive, string_app_cons, string_app_nil. reflexivity.
Qed.

Lemma join_sep_app l1 l2 :
  l1 <> [] -> l2 <> [] -> join_sep (l1 ++ l2) = join_sep l1 ++ String sep (join_sep l2).
Proof.
  intros H1 H2. induction l1 as [|w [|w' l1] IH]; [done| |].
  - simpl. by destruct l2.
  - change (join_sep ((w :: w' :: l1) ++ l2)) with (w ++ String sep (join_sep ((w' :: l1) ++ l2))).
    rewrite IH by done. change (join_sep (w :: w' :: l1)) with (w ++ String sep (join_sep (w' :: l1))).
    by rewrite <- string_app_assoc, string_app_cons.
Qed.

Lemma ends_with_sep_app y x : x <> "" -> ends_with_sep (y ++ x) = ends_with_sep x.
Proof.
  intros Hx. induction y as [|c y IH]; [done|]. rewrite string_app_cons.
  cbn [ends_with_sep]. rewrite IH. destruct y; [|done]. rewrite string_app_nil. by destruct x.
Qed.

Lemma ends_with_sep_name x : has_sep x = false -> ends_with_sep x = false.
Proof.
  induction x as [|c x IH]; intros Hx; [done|]. simpl in Hx.
  apply orb_false_iff in Hx as [Hc Hx]. destruct x; [done|]. by apply IH.
Qed.

Lemma ends_with_sep_join l :
  l <> [] -> Forall (fun c => name_ok c = true) l -> ends_with_sep (join_sep l) = false.
Proof.
  intros Hne Hall. destruct l as [|x l' _] using rev_ind; [done|].
  apply Forall_app in Hall as [Hl' Hx]. inversion Hx as [|? ? Hxn]; subst.
  destruct (name_ok_cons x Hxn) as (a & r & Hxe & _).
  apply names_no_sep in Hx. inversion Hx; subst.
  destruct l' as [|y l'].
  - by apply ends_with_sep_name.
  - rewrite join_sep_app by done. rewrite ends_with_sep_app by done.
    change (ends_with_sep (String sep "" ++ String a r) = false).
    rewrite ends_with_sep_app by done. by apply ends_with_sep_name.
Qed.

(** [abspath] of an absolute path of names is the path itself, of a
    relative one the working directory followed by it. *)
Lemma abspath_abs_names cwd comps :
  comps <> [] -> Forall (fun c => name_ok c = true) comps ->
  abspath cwd (String sep (join_sep comps)) = String sep (join_sep comps).
Proof. intros. unfold abspath. simpl. by apply normpath_abs_names. Qed.

Lemma abspath_rel_names cwd comps :
  comps <> [] -> Forall (fun c => name_ok c = true) (cwd ++ comps) ->
  abspath cwd (join_sep comps) = String sep (join_sep (cwd ++ comps)).
Proof.
  intros Hne Hall. pose proof Hall as Hall'. apply Forall_app in Hall' as [Hc Hp].
  destruct comps as [|w ws]; [done|].
  assert (Hw : name_ok w = true) by (by inversion Hp).
  destruct (join_sep_cons_name w ws Hw) as (a & r & Hj & Ha).
  assert (Habs : isabs (join_sep (w :: ws)) = false) by (by rewrite Hj; simpl).
  assert (Hjoin : join (getcwd cwd) (join_sep (w :: ws)) = String sep (join_sep (cwd ++ w :: ws))).
  { unfold join, getcwd. rewrite Habs. destruct cwd as [|c cwd'].
    - reflexivity.
    - assert (Hc0 : name_ok c = true) by (by inversion Hc).
      destruct (join_sep_cons_name c cwd' Hc0) as (b & r' & Hjc & _).
      assert (He : (String sep (join_sep (c :: cwd')) =? "") = false) by reflexivity.
      change (String sep (join_sep (c :: cwd'))) with (String sep "" ++ join_sep (c :: cwd')) at 2.
      rewrite He, ends_with_sep_app, ends_with_sep_join by (by rewrite ?Hjc). cbn [orb].
      rewrite string_app_cons, join_sep_app by done. reflexivity. }
  unfold abspath. rewrite Habs, Hjoin. apply normpath_abs_names; [by destruct cwd|done].
Qed.

(** ** [dirname] of a path of names drops its last name *)

Lemma after_last_sep_name x : has_sep x = false -> after_last_sep x = 0.
Proof.
  induction x as [|c x IH]; intros Hx; [done|]. simpl in Hx.
  apply orb_false_iff in Hx as [Hc Hx]. simpl. by rewrite IH, Hc.
Qed.

Lemma after_last_sep_app a x :
  has_sep x = false -> after_last_sep (a ++ String sep x) = S (String.length a).
Proof.
  intros Hx. induction a as [|c a IH].
  - simpl. by rewrite after_last_sep_name.
  - rewrite string_app_cons. simpl. by rewrite IH.
Qed.

Lemma substring_prefix a y : substring 0 (S (String.length a)) (a ++ String sep y) = a ++ String sep "".
Proof.
  induction a as [|c a IH].
  - simpl. by destruct y.
  - rewrite !string_app_cons. simpl. by rewrite <- IH.
Qed.

Lemma rstrip_sep_sep a : rstrip_sep (a ++ String sep "") = rstrip_sep a.
Proof. induction a as [|c a IH]; [done|]. rewrite string_app_cons. simpl. by rewrite IH. Qed.

Lemma rstrip_sep_id a : ends_with_sep a = false -> rstrip_sep a = a.
Proof.
  induction a as [|c a IH]; intros Ha; [done|]. simpl.
  destruct a as [|c' a'].
  - simpl in Ha. by rewrite Ha, andb_false_r.
  - rewrite IH by done. done.
Qed.

Lemma dirname_names R x :
  Forall (fun c => name_ok c = true) (R ++ [x]) ->
  dirname (String sep (join_sep (R ++ [x]))) = String sep (join_sep R).
Proof.
  intros Hall. apply Forall_app in Hall as [HR Hx]. inversion Hx as [|? ? Hxn]; subst.
  assert (Hxs : has_sep x = false) by (apply andb_prop in Hxn as [_ ?]; by apply negb_true_iff).
  destruct R as [|c R'].
  - unfold dirname. simpl. rewrite after_last_sep_name by done. by destruct x.
  - assert (Hc : name_ok c = true) by (by inversion HR).
    destruct (join_sep_cons_name c R' Hc) as (b & r & Hj & Hb).
    set (a := String sep (join_sep (c :: R'))).
    assert (Ha : String sep (join_sep ((c :: R') ++ [x])) = a ++ String sep x).
    { unfold a. rewrite join_sep_app by done. by rewrite string_app_cons. }
    unfold dirname. rewrite Ha, after_last_sep_app, substring_prefix by done.
    assert (Hall_sep : all_sep (a ++ String sep "") = false).
    { unfold a. rewrite Hj, !string_app_cons. simpl. by rewrite Hb. }
    rewrite Hall_sep, andb_true_r. replace (_ =? "") with false by (by unfold a; rewrite string_app_cons).
    cbn [negb]. rewrite rstrip_sep_sep. apply rstrip_sep_id.
    unfold a. change (ends_with_sep (String sep "" ++ join_sep (c :: R')) = false).
    rewrite ends_with_sep_app, ends_with_sep_join by (by rewrite ?Hj). done.
Qed.

(** A path of names from the root names the entry it spells out. *)
Lemma resolve_abs_names cwd R :
  Forall (fun c => name_ok c = true) R -> resolve cwd (String sep (join_sep R)) = R.
Proof.
  intros Hall. destruct R as [|c R']; [reflexivity|].
  unfold resolve. simpl isabs. rewrite split_sep_sep, split_join by (done || by apply names_no_sep).
  change (fold_left resolve_step ("" :: c :: R') []) with (fold_left resolve_step (c :: R') []).
  rewrite fold_resolve_plain by (by apply names_plain). by rewrite app_nil_r, rev_involutive.
Qed.

(** ** [abspath] and [dirname] give absolute paths

    So the directory the [__main__] block changes to is never the empty
    name. *)

Lemma isabs_nonempty p : isabs p = true -> p <> "".
Proof. by destruct p. Qed.

Lemma initial_slashes_pos p : isabs p = true -> initial_slashes p <> 0.
Proof.
  destruct p as [|c r]; [done|]. simpl. intros Hc.
  destruct r as [|c2 [|c3 r]]; simpl; rewrite Hc; repeat case_match; lia.
Qed.

Lemma isabs_normpath p : isabs p = true -> isabs (normpath p) = true.
Proof.
  intros Ha. pose proof (initial_slashes_pos p Ha) as Hn.
  unfold normpath. destruct p as [|c r]; [done|]. cbn [String.eqb].
  destruct (initial_slashes (String c r)) as [|k]; [done|]. cbn [slashes].
  rewrite string_app_cons. reflexivity.
Qed.

Lemma isabs_abspath cwd path : isabs (abspath cwd path) = true.
Proof.
  unfold abspath. apply isabs_normpath. destruct (isabs path) eqn:Ha; [done|].
  unfold join, getcwd. rewrite Ha. by case_match; rewrite string_app_cons.
Qed.

Lemma rstrip_sep_not_all_sep x : all_sep x = false -> rstrip_sep x <> "".
Proof.
  induction x as [|d x IH]; [done|]. simpl. intros Hx.
  destruct (Ascii.eqb d sep) eqn:Hd; simpl in Hx.
  - rewrite (proj2 (String.eqb_neq _ _) (IH Hx)). done.
  - rewrite andb_false_r. done.
Qed.

Lemma isabs_dirname p : isabs p = true -> isabs (dirname p) = true.
Proof.
  destruct p as [|c r]; [done|]. simpl. intros Hc. unfold dirname.
  assert (Hi : exists j, after_last_sep (String c r) = S j).
  { simpl. destruct (after_last_sep r); [rewrite Hc|]; eauto. }
  destruct Hi as [j ->]. cbn [substring].
  destruct (negb _ && negb _) eqn:Hcond; [|simpl; done].
  apply andb_prop in Hcond as [_ Hall]. apply negb_true_iff in Hall.
  simpl in Hall. rewrite Hc in Hall. simpl in Hall.
  cbn [rstrip_sep]. rewrite (proj2 (String.eqb_neq _ _) (rstrip_sep_not_all_sep _ Hall)).
  simpl. done.
Qed.

End PosixPath.
