(* ===== verification/Os.v ===== *)
(** * Os: the filesystem and the Python runtime the script runs on

    The state of a run of [process_logo.py] is the filesystem, the working
    directory (which the [__main__] block changes with [os.chdir]) and the
    log of what the process did, printed lines included.  This file models
    that state, Python's exceptions as the script can meet them, and the
    operating-system calls it reaches: [os.path.exists], [os.path.isdir],
    [os.mkdir], [os.makedirs] (translated from CPython's [Lib/os.py]),
    [open] for reading and for writing ([w+b]), [os.remove], [os.chdir] and
    [print].  The invariant [state_wf] (the filesystem is a tree whose
    inner nodes are directories, and the working directory is one of them)
    is preserved by every operation, and [frame] says which entries each
    operation may change.  The empty path name is refused with [ENOENT] by
    every call, as by the kernel. *)

From stdpp Require Import base gmap list strings.
From Stdlib Require Import String.
From Stdlib Require Import Init.Byte.
From S2P Require Import Prelude Paths.


Module Os.
Import PosixPath.

(** A filesystem entry.  Directories carry their write permission for
    the running user; reading and execute permissions are not modelled. *)
Inductive node : Type :=
  | Dir (writable : bool)
  | File (data : list byte).

(** The errno values the calls below can return; CPython raises
    [OSError] with the subclass that matches the errno:
    [FileNotFoundError], [FileExistsError], [NotADirectoryError],
    [IsADirectoryError], [PermissionError]. *)
Inductive errno : Type := ENOENT | EEXIST | ENOTDIR | EISDIR | EACCES.

(** The exceptions a run can raise. *)
Inductive exn : Type :=
  | OSError (err : errno) (filename : string)
  | UnidentifiedImageError (filename : string)
  | ValueError (msg : string)
  | KeyError (key : string)
  | EncoderError (format : string)
  | RecursionError.

Definition is_FileExistsError (e : exn) : bool :=
  match e with OSError EEXIST _ => true | _ => false end.

Definition is_PermissionError (e : exn) : bool :=
  match e with OSError EACCES _ => true | _ => false end.

(** What the process did, in order: lines printed to standard output,
    directories made, files opened for writing, bytes written, files
    removed, directory changes. *)
Inductive event : Type :=
  | EvPrint (line : string)
  | EvMkdir (p : list string)
  | EvOpenWrite (p : list string)
  | EvWrite (p : list string) (data : list byte)
  | EvRemove (p : list string)
  | EvChdir (p : list string).

(** The filesystem maps absolute paths, as lists of components, to
    entries; the root [[]] is a directory. *)
Abbreviation fsys := (gmap (list string) node).

Record state : Type := mkState {
  fs : fsys;
  cwd : list string;
  log : list event
}.

Abbreviation M := (PyM state exn).

Definition set_fs (f : fsys) (s : state) : state := mkState f (cwd s) (log s).
Definition emit (ev : event) (s : state) : state :=
  mkState (fs s) (cwd s) (log s ++ [ev]).

(** What the process printed. *)
Definition stdout (s : state) : list string :=
  omap (fun ev => match ev with EvPrint l => Some l | _ => None end) (log s).

Lemma stdout_print line s : stdout (emit (EvPrint line) s) = stdout s ++ [line].
Proof. unfold stdout, emit. simpl. by rewrite omap_app. Qed.

Lemma stdout_chdir p s : stdout (emit (EvChdir p) s) = stdout s.
Proof. unfold stdout, emit. simpl. rewrite omap_app. simpl. by rewrite app_nil_r. Qed.

(** ** Path lookup

    The kernel walks the components of a path from the root: a missing
    component gives [ENOENT], a file where a directory is needed gives
    [ENOTDIR].  [walk_dirs] checks that every prefix of [rest] (appended
    to [pre]) is a directory; [lookup_parent] checks the directories a
    path passes through. *)
Fixpoint walk_dirs (f : fsys) (pre rest : list string) : option errno :=
  match rest with
  | [] => None
  | c :: rest' =>
      match f !! (pre ++ [c]) with
      | None => Some ENOENT
      | Some (File _) => Some ENOTDIR
      | Some (Dir _) => walk_dirs f (pre ++ [c]) rest'
      end
  end.

Definition lookup_parent (f : fsys) (p : list string) : option errno :=
  walk_dirs f [] (removelast p).

(** [stat(2)] on a resolved path. *)
Definition stat (f : fsys) (p : list string) : errno + node :=
  match lookup_parent f p with
  | Some e => inl e
  | None => match f !! p with None => inl ENOENT | Some n => inr n end
  end.

Definition parent_writable (f : fsys) (p : list string) : bool :=
  match f !! removelast p with Some (Dir w) => w | _ => false end.

(** ** The calls

    Every call that takes a path refuses the empty name first, with
    [ENOENT], as the kernel does before any lookup ([os.chdir('')] raises
    [FileNotFoundError], [os.path.exists('')] is [False]); any other name
    is resolved against the working directory. *)

Definition empty_path (path : string) : bool := String.eqb path "".

(** [stat(2)] on a path name. *)
Definition stat_path (s : state) (path : string) : errno + node :=
  if empty_path path then inl ENOENT else stat (fs s) (resolve (cwd s) path).

(** [os.path.exists(path)]: [stat] succeeds; errors mean [False]. *)
Definition path_exists (path : string) : M bool :=
  gets (fun s => match stat_path s path with inr _ => true | inl _ => false end).

(** [os.path.isdir(path)] *)
Definition path_isdir (path : string) : M bool :=
  gets (fun s => match stat_path s path with inr (Dir _) => true | _ => false end).

(** [os.mkdir(path)] *)
Definition mkdir (path : string) : M unit :=
  fun s =>
    if empty_path path then (Raised (OSError ENOENT path), s) else
    let p := resolve (cwd s) path in
    match lookup_parent (fs s) p with
    | Some e => (Raised (OSError e path), s)
    | None =>
        match fs s !! p with
        | Some _ => (Raised (OSError EEXIST path), s)
        | None =>
            if parent_writable (fs s) p
            then (Normal tt, emit (EvMkdir p) (set_fs (<[p := Dir true]> (fs s)) s))
            else (Raised (OSError EACCES path), s)
        end
    end.

(** [posixpath.split(p)]: [dirname] and the part after the last
    separator. *)
Definition split (p : string) : string * string :=
  let i := after_last_sep p in
  (dirname p, substring i (String.length p - i) p).

(** [os.makedirs(name, exist_ok)], from CPython's [Lib/os.py]:
<<
  head, tail = path.split(name)
  if not tail:
      head, tail = path.split(head)
  if head and tail and not path.exists(head):
      try:
          makedirs(head, exist_ok=exist_ok)
      except FileExistsError:
          pass
      if tail == curdir:
          return
  try:
      mkdir(name, mode)
  except OSError:
      if not exist_ok or not path.isdir(name):
          raise
>>
    The recursion is on [head], a strictly shorter string; [fuel] bounds
    its depth, and [makedirs] gives it the length of [name], which
    [Os.makedirs_fuel_enough] shows is enough. *)
Fixpoint makedirs_fuel (fuel : nat) (name : string) (exist_ok : bool) : M unit :=
  match fuel with
  | O => raise RecursionError
  | S fuel' =>
      let '(head, tail) :=
        let '(h, t) := split name in
        if String.eqb t ""%string then split h else (h, t) in
      early <-
        (if negb (String.eqb head ""%string) && negb (String.eqb tail ""%string) then
           e <- path_exists head ;;
           if e then ret false
           else
             try_except (makedirs_fuel fuel' head exist_ok)
               (fun err => if is_FileExistsError err then ret tt else raise err) ;;
             ret (String.eqb tail "."%string)
         else ret false) ;;
      if early then ret tt
      else
        try_except (mkdir name)
          (fun err =>
             d <- path_isdir name ;;
             if negb exist_ok || negb d then raise err else ret tt)
  end.

Definition makedirs (name : string) (exist_ok : bool) : M unit :=
  makedirs_fuel (S (String.length name)) name exist_ok.

(** [open(path, 'rb').read()] *)
Definition read_file (path : string) : M (list byte) :=
  fun s =>
    match stat_path s path with
    | inl e => (Raised (OSError e path), s)
    | inr (Dir _) => (Raised (OSError EISDIR path), s)
    | inr (File d) => (Normal d, s)
    end.

(** [open(path, 'w+b')]: [O_RDWR | O_CREAT | O_TRUNC].  An existing
    file is truncated; a new one needs a writable directory.  The result
    is the opened file, named by its resolved path. *)
Definition open_write (path : string) : M (list string) :=
  fun s =>
    if empty_path path then (Raised (OSError ENOENT path), s) else
    let p := resolve (cwd s) path in
    match lookup_parent (fs s) p with
    | Some e => (Raised (OSError e path), s)
    | None =>
        match fs s !! p with
        | Some (Dir _) => (Raised (OSError EISDIR path), s)
        | Some (File _) =>
            (Normal p, emit (EvOpenWrite p) (set_fs (<[p := File []]> (fs s)) s))
        | None =>
            if parent_writable (fs s) p
            then (Normal p, emit (EvOpenWrite p) (set_fs (<[p := File []]> (fs s)) s))
            else (Raised (OSError EACCES path), s)
        end
    end.

(** [fp.write(data)] on a file opened by [open_write]: appends. *)
Definition fwrite (p : list string) (data : list byte) : M unit :=
  fun s =>
    match fs s !! p with
    | Some (File d) => (Normal tt, emit (EvWrite p data) (set_fs (<[p := File (d ++ data)]> (fs s)) s))
    | _ => (Normal tt, s)
    end.

(** [os.remove(path)]: [unlink(2)]. *)
Definition remove (path : string) : M unit :=
  fun s =>
    let p := resolve (cwd s) path in
    match stat_path s path with
    | inl e => (Raised (OSError e path), s)
    | inr (Dir _) => (Raised (OSError EISDIR path), s)
    | inr (File _) =>
        if parent_writable (fs s) p
        then (Normal tt, emit (EvRemove p) (set_fs (delete p (fs s)) s))
        else (Raised (OSError EACCES path), s)
    end.

(** [os.chdir(path)] *)
Definition chdir (path : string) : M unit :=
  fun s =>
    let p := resolve (cwd s) path in
    match stat_path s path with
    | inl e => (Raised (OSError e path), s)
    | inr (File _) => (Raised (OSError ENOTDIR path), s)
    | inr (Dir _) => (Normal tt, emit (EvChdir p) (mkState (fs s) p (log s)))
    end.

(** [print(line)] *)
Definition print (line : string) : M unit :=
  fun s => (Normal tt, emit (EvPrint line) s).

(** A path [open(path, 'w+b')] can open: an existing file, or a new
    entry of a writable directory. *)
Definition writable_path (f : fsys) (p : list string) : Prop :=
  match f !! p with
  | Some (Dir _) => False
  | Some (File _) => True
  | None => parent_writable f p = true
  end.

(** The state after [p] was opened for writing and [d] written to it. *)
Definition after_write (p : list string) (d : list byte) (s : state) : state :=
  mkState (<[p := File d]> (fs s)) (cwd s) (log s ++ [EvOpenWrite p] ++ [EvWrite p d]).

(** ** The invariant: a tree of directories *)

Definition fs_wf (f : fsys) : Prop :=
  (exists w, f !! [] = Some (Dir w)) /\
  forall p n, f !! p = Some n -> p <> [] ->
    exists w, f !! removelast p = Some (Dir w).

Definition state_wf (s : state) : Prop :=
  fs_wf (fs s) /\ exists w, fs s !! cwd s = Some (Dir w).

(** The invariant as a computation, for concrete states. *)
Definition is_dir (f : fsys) (p : list string) : bool :=
  match f !! p with Some (Dir _) => true | _ => false end.

Definition state_wfb (s : state) : bool :=
  is_dir (fs s) [] &&
  bool_decide (map_Forall (fun p _ => p = [] \/ is_dir (fs s) (removelast p) = true) (fs s)) &&
  is_dir (fs s) (cwd s).

(** ** What a statement may change

    [frame T s s']: from [s] to [s'] the working directory stays and every
    entry outside [T cwd] (the entries a statement is allowed to touch,
    given the working directory it runs in) keeps its node. *)
Definition frame (T : list string -> list (list string)) (s s' : state) : Prop :=
  cwd s' = cwd s /\ forall q, q ∉ T (cwd s) -> fs s' !! q = fs s !! q.

Lemma is_dir_spec f p : is_dir f p = true <-> exists w, f !! p = Some (Dir w).
Proof.
  unfold is_dir. destruct (f !! p) as [[w|d]|]; split; try done; eauto.
  all: by intros [w ?].
Qed.

Lemma state_wfb_sound s : state_wfb s = true -> state_wf s.
Proof.
  unfold state_wfb. intros Hb.
  apply andb_prop in Hb as [Hb Hcwd]. apply andb_prop in Hb as [Hroot Hall].
  apply bool_decide_eq_true in Hall. rewrite map_Forall_lookup in Hall.
  split; [split|by apply is_dir_spec].
  - by apply is_dir_spec.
  - intros p n Hp Hne. apply is_dir_spec. by destruct (Hall p n Hp).
Qed.

(** ** Lookup in a tree *)

Lemma walk_dirs_none_dir f pre rest :
  walk_dirs f pre rest = None -> rest <> [] ->
  exists w, f !! (pre ++ rest) = Some (Dir w).
Proof.
  revert pre. induction rest as [|c rest IH]; intros pre Hw Hne; [done|].
  simpl in Hw. destruct (f !! (pre ++ [c])) as [[w|d]|] eqn:Hc; try done.
  destruct rest as [|c' rest']; [by exists w|].
  replace (pre ++ c :: c' :: rest') with ((pre ++ [c]) ++ c' :: rest')
    by (rewrite <- app_assoc; reflexivity).
  apply IH; [done|discriminate].
Qed.

Lemma walk_dirs_of_dirs f pre rest :
  (forall r1 r2, rest = r1 ++ r2 -> r1 <> [] -> exists w, f !! (pre ++ r1) = Some (Dir w)) ->
  walk_dirs f pre rest = None.
Proof.
  revert pre. induction rest as [|c rest IH]; intros pre Hd; [done|]. simpl.
  destruct (Hd [c] rest eq_refl ltac:(discriminate)) as [w ->].
  apply IH. intros r1 r2 -> Hr1. rewrite <- app_assoc.
  by apply (Hd (c :: r1) r2).
Qed.

Section Tree.
Context (f : fsys) (Hwf : fs_wf f).

Lemma wf_ancestor q1 q2 n :
  f !! (q1 ++ q2) = Some n -> q2 <> [] -> exists w, f !! q1 = Some (Dir w).
Proof.
  revert n. induction q2 as [|c q2 IH] using rev_ind; intros n Hq Hne; [done|].
  destruct Hwf as [Hroot Hpar].
  rewrite app_assoc in Hq.
  destruct (Hpar _ _ Hq) as [w Hw].
  { intros Hnil. apply app_eq_nil in Hnil as [_ ?]. done. }
  rewrite removelast_snoc in Hw.
  destruct q2 as [|c' q2']; [rewrite app_nil_r in Hw; by exists w|].
  by apply (IH (Dir w)).
Qed.

Lemma lookup_parent_dir p w :
  f !! removelast p = Some (Dir w) -> lookup_parent f p = None.
Proof.
  intros Hp. unfold lookup_parent. apply walk_dirs_of_dirs.
  intros r1 r2 Hr Hr1. simpl.
  destruct r2 as [|c r2]; [rewrite app_nil_r in Hr; subst; by exists w|].
  rewrite Hr in Hp. eapply wf_ancestor; [exact Hp|discriminate].
Qed.

Lemma lookup_parent_none p :
  lookup_parent f p = None -> exists w, f !! removelast p = Some (Dir w).
Proof.
  unfold lookup_parent. intros Hw.
  destruct (removelast p) as [|c r] eqn:Hr; [apply Hwf|].
  by apply (walk_dirs_none_dir f [] (c :: r)).
Qed.

Lemma stat_present p n : f !! p = Some n -> stat f p = inr n.
Proof.
  intros Hp. unfold stat.
  destruct (decide (p = [])) as [->|Hne].
  - by rewrite Hp.
  - destruct Hwf as [_ Hpar]. destruct (Hpar p n Hp Hne) as [w Hw].
    by rewrite (lookup_parent_dir p w Hw), Hp.
Qed.

Lemma file_no_children p d q m :
  f !! p = Some (File d) -> f !! q = Some m -> q <> [] -> removelast q <> p.
Proof.
  intros Hp Hq Hne <-. destruct Hwf as [_ Hpar].
  destruct (Hpar q m Hq Hne) as [w Hw]. congruence.
Qed.

Lemma insert_dir_wf p b w :
  f !! removelast p = Some (Dir w) -> fs_wf (<[p := Dir b]> f).
Proof.
  intros Hp. destruct Hwf as [[w0 Hroot] Hpar]. split.
  - rewrite lookup_insert. case_decide; eauto.
  - intros q n Hq Hne. rewrite lookup_insert in Hq |- *.
    case_decide as Hpq; [subst; case_decide; eauto|].
    destruct (Hpar q n Hq Hne) as [w' Hw']. case_decide; eauto.
Qed.

Lemma insert_file_wf p d w :
  p <> [] -> f !! removelast p = Some (Dir w) ->
  (forall b, f !! p <> Some (Dir b)) -> fs_wf (<[p := File d]> f).
Proof.
  intros Hne Hp Hnd. destruct Hwf as [[w0 Hroot] Hpar]. split.
  - rewrite lookup_insert. case_decide; [done|eauto].
  - intros q n Hq Hqne. rewrite lookup_insert in Hq |- *.
    case_decide as Hpq; [subst; case_decide as Hc; [|eauto]|].
    + exfalso. pose proof (removelast_prefix_length q Hqne) as Hl.
      rewrite <- Hc in Hl. lia.
    + destruct (Hpar q n Hq Hqne) as [w' Hw']. case_decide as Hc; [|eauto].
      rewrite <- Hc in Hw'. exfalso. by apply (Hnd w').
Qed.

Lemma delete_file_wf p d :
  p <> [] -> f !! p = Some (File d) -> fs_wf (delete p f).
Proof.
  intros Hne Hp. destruct Hwf as [[w0 Hroot] Hpar]. split.
  - rewrite lookup_delete_ne; eauto.
  - intros q n Hq Hqne. rewrite lookup_delete in Hq.
    case_decide; [done|].
    destruct (Hpar q n Hq Hqne) as [w' Hw'].
    rewrite lookup_delete_ne; [eauto|]. congruence.
Qed.
End Tree.

Lemma parent_writable_dir f p :
  parent_writable f p = true -> f !! removelast p = Some (Dir true).
Proof. unfold parent_writable. by destruct (f !! removelast p) as [[[]|]|]. Qed.

(** ** Every operation preserves [state_wf] *)

Lemma mkdir_wf path : preserves state_wf (mkdir path).
Proof.
  intros s Hs. pose proof Hs as [Hwf [w Hcwd]]. unfold mkdir.
  destruct (empty_path path); [exact Hs|]. set (p := resolve (cwd s) path).
  destruct (lookup_parent _ p); [exact Hs|].
  destruct (fs s !! p) eqn:Hp; [exact Hs|].
  destruct (parent_writable _ p) eqn:Hw; [|exact Hs]. unfold state_wf; cbn [snd fs cwd log emit set_fs].
  split; [by eapply insert_dir_wf, parent_writable_dir|].
  rewrite lookup_insert. case_decide; eauto.
Qed.

Lemma open_write_wf path : preserves state_wf (open_write path).
Proof.
  intros s Hs. pose proof Hs as [Hwf [w Hcwd]]. unfold open_write.
  destruct (empty_path path); [exact Hs|]. set (p := resolve (cwd s) path).
  destruct (lookup_parent _ p) eqn:Hlp; [exact Hs|].
  destruct (lookup_parent_none _ Hwf _ Hlp) as [wp Hwp].
  assert (Hfresh : forall n, fs s !! p = n -> (forall b, n <> Some (Dir b)) ->
    state_wf (emit (EvOpenWrite p) (set_fs (<[p := File []]> (fs s)) s))).
  { intros n Hn Hnd. unfold state_wf; cbn [snd fs cwd log emit set_fs]. split.
    - eapply insert_file_wf; [done| |exact Hwp|].
      + intros ->. destruct Hwf as [[w0 Hr] _]. specialize (Hnd w0). congruence.
      + intros b. rewrite Hn. apply Hnd.
    - rewrite lookup_insert_ne; [eauto|]. intros Heq. rewrite <- Heq in Hcwd.
      specialize (Hnd w). congruence. }
  destruct (fs s !! p) as [[|]|] eqn:Hp; [exact Hs| |].
  - by apply (Hfresh (Some (File data))).
  - destruct (parent_writable _ _); [|exact Hs]. by apply (Hfresh None).
Qed.

Lemma fwrite_wf p data : preserves state_wf (fwrite p data).
Proof.
  intros s Hs. pose proof Hs as [Hwf [w Hcwd]]. unfold fwrite.
  destruct (fs s !! p) as [[|d]|] eqn:Hp; [exact Hs| |exact Hs]. unfold state_wf; cbn [snd fs cwd log emit set_fs].
  assert (p <> []) as Hne.
  { intros ->. destruct Hwf as [[w0 Hr] _]. congruence. }
  pose proof Hwf as [_ Hpar]. destruct (Hpar p (File d) Hp Hne) as [wp Hwp].
  split.
  - eapply insert_file_wf; [done|done|exact Hwp|].
    intros b. congruence.
  - rewrite lookup_insert_ne; [eauto|congruence].
Qed.

Lemma remove_wf path : preserves state_wf (remove path).
Proof.
  intros s Hs. pose proof Hs as [Hwf [w Hcwd]]. unfold remove, stat_path.
  destruct (empty_path path); [exact Hs|]. set (p := resolve (cwd s) path).
  destruct (stat _ p) as [|[|d]] eqn:Hst; [exact Hs|exact Hs|].
  destruct (parent_writable _ p); [|exact Hs]. unfold state_wf; cbn [snd fs cwd log emit set_fs].
  unfold stat in Hst. destruct (lookup_parent _ p); [done|].
  destruct (fs s !! p) eqn:Hp; [|done]. simplify_eq.
  assert (p <> []) as Hne.
  { intros Hr. rewrite Hr in Hp. destruct Hwf as [[w0 Hr0] _]. congruence. }
  split; [by eapply delete_file_wf|].
  rewrite lookup_delete_ne; [eauto|congruence].
Qed.

Lemma chdir_wf path : preserves state_wf (chdir path).
Proof.
  intros s Hs. pose proof Hs as [Hwf Hcwd]. unfold chdir, stat_path.
  destruct (empty_path path); [exact Hs|]. set (p := resolve (cwd s) path).
  destruct (stat _ p) as [|[w|d]] eqn:Hst; [exact Hs| |exact Hs]. unfold state_wf; cbn [snd fs cwd log emit set_fs].
  unfold stat in Hst. destruct (lookup_parent _ p); [done|].
  destruct (fs s !! p) eqn:Hp; [|done]. simplify_eq. eauto.
Qed.

Lemma print_wf line : preserves state_wf (print line).
Proof. by intros s Hs. Qed.

Lemma path_exists_wf path : preserves state_wf (path_exists path).
Proof. apply preserves_gets. Qed.

Lemma path_isdir_wf path : preserves state_wf (path_isdir path).
Proof. apply preserves_gets. Qed.

Lemma read_file_wf path : preserves state_wf (read_file path).
Proof.
  intros s Hs. unfold read_file. by destruct (stat_path _ _) as [|[]].
Qed.

#[export] Hint Resolve mkdir_wf open_write_wf fwrite_wf remove_wf chdir_wf print_wf
  path_exists_wf path_isdir_wf read_file_wf : fsdb.

Lemma makedirs_fuel_wf fuel name exist_ok :
  preserves state_wf (makedirs_fuel fuel name exist_ok).
Proof.
  revert name. induction fuel as [|fuel IH]; intros name; simpl;
    [apply preserves_raise|].
  destruct (split name) as [h t]. destruct (split h) as [h' t'].
  solve_preserves.
Qed.

Lemma makedirs_wf name exist_ok : preserves state_wf (makedirs name exist_ok).
Proof. apply makedirs_fuel_wf. Qed.

#[export] Hint Resolve makedirs_wf : fsdb.

(** ** The calls that complete *)

Lemma empty_path_false path : path <> ""%string -> empty_path path = false.
Proof. apply String.eqb_neq. Qed.

(** A name that does not resolve to a directory is not the empty name,
    which resolves to the working directory. *)
Lemma path_nonempty s path :
  state_wf s -> is_dir (fs s) (resolve (cwd s) path) = false -> path <> ""%string.
Proof.
  intros [_ [w Hw]] Hd ->. rewrite resolve_empty in Hd. unfold is_dir in Hd. by rewrite Hw in Hd.
Qed.

Lemma writable_path_not_dir f p : writable_path f p -> is_dir f p = false.
Proof. unfold writable_path, is_dir. by destruct (f !! p) as [[]|]. Qed.

Lemma runs_to_wf {A} (m : M A) s a s' :
  preserves state_wf m -> state_wf s -> runs_to m s a s' -> state_wf s'.
Proof. intros Hm Hs Hr. specialize (Hm s Hs). unfold runs_to in Hr. by rewrite Hr in Hm. Qed.

Lemma open_write_ok path s :
  state_wf s -> writable_path (fs s) (resolve (cwd s) path) ->
  runs_to (open_write path) s (resolve (cwd s) path)
    (emit (EvOpenWrite (resolve (cwd s) path))
       (set_fs (<[resolve (cwd s) path := File []]> (fs s)) s)).
Proof.
  intros Hs Hw. pose proof (path_nonempty s path Hs (writable_path_not_dir _ _ Hw)) as Hne0.
  destruct Hs as [Hwf _]. unfold writable_path, runs_to, open_write in *.
  rewrite empty_path_false by done. set (p := resolve (cwd s) path) in *.
  destruct (fs s !! p) as [[|d]|] eqn:Hp; [done| |].
  - assert (p <> []) as Hne.
    { intros Hr. rewrite Hr in Hp. destruct Hwf as [[w0 Hr0] _]. congruence. }
    pose proof Hwf as [_ Hpar]. destruct (Hpar p _ Hp Hne) as [w Hw'].
    by rewrite (lookup_parent_dir _ Hwf p w Hw').
  - by rewrite (lookup_parent_dir _ Hwf p true (parent_writable_dir _ _ Hw)), Hw.
Qed.

Lemma fwrite_ok p d0 d s :
  fs s !! p = Some (File d0) ->
  runs_to (fwrite p d) s tt
    (emit (EvWrite p d) (set_fs (<[p := File (d0 ++ d)]> (fs s)) s)).
Proof. intros Hp. unfold runs_to, fwrite. by rewrite Hp. Qed.

Lemma open_write_fwrite path d s :
  state_wf s -> writable_path (fs s) (resolve (cwd s) path) ->
  runs_to (p <- open_write path ;; fwrite p d) s tt
    (after_write (resolve (cwd s) path) d s).
Proof.
  intros Hs Hw. unfold runs_to.
  rewrite (bind_normal _ _ _ _ _ (open_write_ok path s Hs Hw)).
  unfold fwrite, after_write, emit, set_fs. cbn [fs cwd log].
  by rewrite lookup_insert_eq, insert_insert_eq, app_nil_l, app_assoc.
Qed.

#[export] Instance node_eq_dec : EqDecision node.
Proof. solve_decision. Defined.

(** [os.mkdir] of a new entry of a writable directory, and of an entry
    that exists. *)
Lemma mkdir_new path p s :
  state_wf s -> resolve (cwd s) path = p -> fs s !! p = None ->
  fs s !! removelast p = Some (Dir true) ->
  runs_to (mkdir path) s tt (emit (EvMkdir p) (set_fs (<[p := Dir true]> (fs s)) s)).
Proof.
  intros Hs Hp Hnone Hpar.
  assert (Hne0 : path <> ""%string) by (apply (path_nonempty s); [done|unfold is_dir; by rewrite Hp, Hnone]).
  destruct Hs as [Hwf _]. unfold runs_to, mkdir. rewrite empty_path_false, Hp by done.
  rewrite (lookup_parent_dir _ Hwf p true Hpar), Hnone.
  unfold parent_writable. by rewrite Hpar.
Qed.

Lemma mkdir_present path p n s :
  state_wf s -> path <> ""%string -> resolve (cwd s) path = p -> fs s !! p = Some n ->
  raises (mkdir path) s (OSError EEXIST path) s.
Proof.
  intros [Hwf _] Hne0 Hp Hn. unfold raises, mkdir. rewrite empty_path_false, Hp by done.
  destruct (decide (p = [])) as [->|Hne].
  - by rewrite Hn.
  - pose proof Hwf as [_ Hpar]. destruct (Hpar p n Hn Hne) as [w Hw].
    by rewrite (lookup_parent_dir _ Hwf p w Hw), Hn.
Qed.

Lemma mkdir_readonly path p s :
  state_wf s -> resolve (cwd s) path = p -> fs s !! p = None ->
  fs s !! removelast p = Some (Dir false) ->
  raises (mkdir path) s (OSError EACCES path) s.
Proof.
  intros Hs Hp Hnone Hpar.
  assert (Hne0 : path <> ""%string) by (apply (path_nonempty s); [done|unfold is_dir; by rewrite Hp, Hnone]).
  destruct Hs as [Hwf _]. unfold raises, mkdir. rewrite empty_path_false, Hp by done.
  rewrite (lookup_parent_dir _ Hwf p false Hpar), Hnone.
  unfold parent_writable. by rewrite Hpar.
Qed.

Lemma mkdir_parent_error path p e s :
  path <> ""%string -> resolve (cwd s) path = p -> lookup_parent (fs s) p = Some e ->
  raises (mkdir path) s (OSError e path) s.
Proof. intros Hne0 Hp He. unfold raises, mkdir. by rewrite empty_path_false, Hp, He. Qed.

(** A path below a file: the walk stops at the file with [ENOTDIR]. *)
Lemma walk_dirs_file f pre rest d :
  (forall r1 r2, rest = r1 ++ r2 -> r1 <> [] -> r2 <> [] ->
     exists w, f !! (pre ++ r1) = Some (Dir w)) ->
  f !! (pre ++ rest) = Some (File d) -> rest <> [] ->
  walk_dirs f pre rest = Some ENOTDIR.
Proof.
  revert pre. induction rest as [|c rest IH]; intros pre Hd Hf Hne; [done|]. simpl.
  destruct rest as [|c' rest'].
  - by rewrite Hf.
  - destruct (Hd [c] (c' :: rest') eq_refl ltac:(discriminate) ltac:(discriminate)) as [w ->].
    apply IH; [|by rewrite <- app_assoc|discriminate].
    intros r1 r2 Hr Hr1 Hr2. rewrite <- app_assoc.
    apply (Hd (c :: r1) r2); [by rewrite Hr|discriminate|done].
Qed.

Lemma lookup_parent_under_file f q c d :
  fs_wf f -> f !! q = Some (File d) -> q <> [] -> lookup_parent f (q ++ [c]) = Some ENOTDIR.
Proof.
  intros Hwf Hq Hne. unfold lookup_parent. rewrite removelast_snoc.
  apply (walk_dirs_file f [] q d); [|done|done].
  intros r1 r2 -> Hr1 Hr2. simpl. eapply wf_ancestor; [done|exact Hq|done].
Qed.

Lemma stat_run_present path p n s :
  state_wf s -> path <> ""%string -> resolve (cwd s) path = p -> fs s !! p = Some n ->
  stat_path s path = inr n.
Proof. intros [Hwf _] Hne0 <- Hn. unfold stat_path. rewrite empty_path_false by done. by apply stat_present. Qed.

Lemma stat_path_file s path d :
  state_wf s -> fs s !! resolve (cwd s) path = Some (File d) -> stat_path s path = inr (File d).
Proof.
  intros Hs Hf. apply (stat_run_present path (resolve (cwd s) path)); [done| |done|done].
  apply (path_nonempty s); [done|unfold is_dir; by rewrite Hf].
Qed.

Lemma stat_run_absent path p w s :
  state_wf s -> resolve (cwd s) path = p -> fs s !! p = None ->
  fs s !! removelast p = Some (Dir w) ->
  stat_path s path = inl ENOENT.
Proof.
  intros [Hwf _] <- Hn Hpar. unfold stat_path, stat. destruct (empty_path path); [done|].
  by rewrite (lookup_parent_dir _ Hwf _ w Hpar), Hn.
Qed.

Lemma after_write_wf p d st :
  state_wf st -> writable_path (fs st) p -> state_wf (after_write p d st).
Proof.
  intros [Hwf [w Hcwd]] Hw. unfold writable_path in Hw.
  assert (Hnd : forall b, fs st !! p <> Some (Dir b)).
  { intros b Hb. by rewrite Hb in Hw. }
  assert (Hne : p <> []).
  { intros ->. destruct Hwf as [[w0 Hr] _]. by apply (Hnd w0). }
  assert (Hpar : exists wp, fs st !! removelast p = Some (Dir wp)).
  { destruct (fs st !! p) as [n|] eqn:Hp.
    - destruct Hwf as [_ Hpar]. by apply (Hpar p n).
    - exists true. by apply parent_writable_dir. }
  destruct Hpar as [wp Hwp]. split; simpl.
  - by eapply insert_file_wf.
  - rewrite lookup_insert_ne; [eauto|]. intros Heq. rewrite <- Heq in Hcwd. by apply (Hnd w).
Qed.

(** Files written one after the other. *)
Definition write_all (ws : list (list string * list byte)) (f : fsys) : fsys :=
  foldl (fun f w => <[w.1 := File w.2]> f) f ws.

Lemma write_all_lookup_ne ws f q : q ∉ ws.*1 -> write_all ws f !! q = f !! q.
Proof.
  revert f. induction ws as [|w ws IH]; intros f Hq; [done|].
  simpl in Hq. apply not_elem_of_cons in Hq as [Hw Hq].
  simpl. rewrite IH by done. by rewrite lookup_insert_ne.
Qed.

Lemma write_all_lookup_in ws f p d :
  NoDup ws.*1 -> (p, d) ∈ ws -> write_all ws f !! p = Some (File d).
Proof.
  revert f. induction ws as [|[p' d'] ws IH]; intros f Hnd Hin;
    [by apply not_elem_of_nil in Hin|].
  simpl in Hnd. apply NoDup_cons in Hnd as [Hp' Hnd]. simpl.
  apply elem_of_cons in Hin as [[= -> ->]|Hin].
  - rewrite write_all_lookup_ne by done. apply lookup_insert_eq.
  - by apply IH.
Qed.

Lemma write_all_idem ws f :
  NoDup ws.*1 -> write_all ws (write_all ws f) = write_all ws f.
Proof.
  intros Hnd. apply map_eq. intros q.
  destruct (decide (q ∈ ws.*1)) as [Hq|Hq].
  - apply list_elem_of_fmap in Hq as [[p d] [-> Hin]].
    by rewrite !(write_all_lookup_in _ _ p d).
  - by rewrite !write_all_lookup_ne.
Qed.

Lemma chdir_ok path s :
  state_wf s -> path <> ""%string -> is_dir (fs s) (resolve (cwd s) path) = true ->
  runs_to (chdir path) s tt
    (emit (EvChdir (resolve (cwd s) path)) (mkState (fs s) (resolve (cwd s) path) (log s))).
Proof.
  intros [Hwf _] Hne0 Hd. apply is_dir_spec in Hd as [w Hw]. unfold runs_to, chdir, stat_path.
  by rewrite empty_path_false, (stat_present _ Hwf _ _ Hw).
Qed.

Lemma path_exists_run path s :
  runs_to (path_exists path) s
    (match stat_path s path with inr _ => true | inl _ => false end) s.
Proof. reflexivity. Qed.

(** ** [os.makedirs] terminates

    The recursive call is on a strictly shorter path, so fuel beyond the
    length of the path is never used up: [makedirs] behaves as the
    unbounded recursion of CPython. *)

Lemma split_head_le name : String.length (split name).1 <= String.length name.
Proof. unfold split. simpl. pose proof (dirname_le name). pose proof (after_last_sep_le name). lia. Qed.

Lemma split_shorter name :
  (split name).2 <> ""%string -> String.length (split name).1 < String.length name.
Proof.
  unfold split. simpl. intros Ht. pose proof (dirname_le name).
  destruct (decide (after_last_sep name < String.length name)); [lia|].
  exfalso. apply Ht. replace (String.length name - after_last_sep name) with 0 by lia.
  apply substring_empty.
Qed.

Lemma makedirs_head_shorter name :
  let ht := (let '(h, t) := split name in if String.eqb t ""%string then split h else (h, t)) in
  ht.2 <> ""%string -> String.length ht.1 < String.length name.
Proof.
  pose proof (split_head_le name). pose proof (split_shorter name).
  destruct (split name) as [h t]; simpl in *.
  destruct (String.eqb_spec t ""); [|auto].
  intros Ht. pose proof (split_shorter h Ht). lia.
Qed.

Lemma makedirs_fuel_stable n m name ok :
  String.length name < n -> String.length name < m ->
  makedirs_fuel n name ok ≡ makedirs_fuel m name ok.
Proof.
  revert m name. induction n as [|n IH]; intros [|m] name Hn Hm; try lia.
  cbn [makedirs_fuel]. pose proof (makedirs_head_shorter name) as Hlt.
  set (ht := let '(h, t) := split name in _) in *. destruct ht as [head tail]; simpl in Hlt.
  apply bind_proper; [|intros ?; reflexivity].
  destruct (negb _ && negb _) eqn:Hc; [|reflexivity].
  apply andb_true_iff in Hc as [_ Ht]. apply negb_true_iff, String.eqb_neq in Ht.
  apply bind_proper; [reflexivity|intros []; [reflexivity|]].
  apply bind_proper; [|intros ?; reflexivity].
  apply try_except_proper; [apply IH; specialize (Hlt Ht); lia|intros ?; reflexivity].
Qed.

(** Any fuel larger than the length of the path gives [makedirs]. *)
Lemma makedirs_fuel_enough n name ok :
  String.length name < n -> makedirs_fuel n name ok ≡ makedirs name ok.
Proof. intros Hn. apply makedirs_fuel_stable; [done|unfold makedirs; lia]. Qed.

(** ** Which entries each call changes *)

Section Frame.
Context (T : list string -> list (list string)).

#[export] Instance frame_preorder : PreOrder (frame T).
Proof.
  split.
  - intros s. by split.
  - intros s1 s2 s3 [Hc12 Hf12] [Hc23 Hf23]. split; [congruence|].
    intros q Hq. rewrite Hf23 by (by rewrite Hc12). by apply Hf12.
Qed.

Lemma frame_emit ev s : frame T s (emit ev s).
Proof. by split. Qed.

Lemma frame_insert ev p n s :
  p ∈ T (cwd s) -> frame T s (emit ev (set_fs (<[p := n]> (fs s)) s)).
Proof.
  intros Hp. split; [done|]. intros q Hq. simpl.
  rewrite lookup_insert_ne; [done|]. intros ->. by apply Hq.
Qed.

Lemma frame_delete ev p s :
  p ∈ T (cwd s) -> frame T s (emit ev (set_fs (delete p (fs s)) s)).
Proof.
  intros Hp. split; [done|]. intros q Hq. simpl.
  rewrite lookup_delete_ne; [done|]. intros ->. by apply Hq.
Qed.

(** The calls on a path name touch only the entry it resolves to. *)
Definition touches_path (path : string) : Prop := forall R, resolve R path ∈ T R.

Lemma mkdir_frame path : touches_path path -> guarantees (frame T) (mkdir path).
Proof.
  intros Ht s. unfold mkdir. destruct (empty_path path); [simpl; reflexivity|].
  repeat case_match; simpl; try reflexivity. by apply frame_insert.
Qed.

Lemma open_write_frame path : touches_path path -> guarantees (frame T) (open_write path).
Proof.
  intros Ht s. unfold open_write. destruct (empty_path path); [simpl; reflexivity|].
  repeat case_match; simpl; try reflexivity; by apply frame_insert.
Qed.

Lemma remove_frame path : touches_path path -> guarantees (frame T) (remove path).
Proof.
  intros Ht s. unfold remove. repeat case_match; simpl; try reflexivity. by apply frame_delete.
Qed.

Lemma fwrite_frame_at p d s : p ∈ T (cwd s) -> frame T s (snd (fwrite p d s)).
Proof. intros Hp. unfold fwrite. case_match; [case_match|]; simpl; try reflexivity. by apply frame_insert. Qed.

Lemma print_frame line : guarantees (frame T) (print line).
Proof. intros s. apply frame_emit. Qed.

Lemma path_exists_frame path : guarantees (frame T) (path_exists path).
Proof. apply guarantees_gets, _. Qed.

Lemma path_isdir_frame path : guarantees (frame T) (path_isdir path).
Proof. apply guarantees_gets, _. Qed.

Lemma read_file_frame path : guarantees (frame T) (read_file path).
Proof. intros s. unfold read_file. repeat case_match; simpl; reflexivity. Qed.
End Frame.

(** [open] names the opened file by the path it resolved. *)
Lemma open_write_value path s p s' :
  open_write path s = (Normal p, s') -> p = resolve (cwd s) path /\ cwd s' = cwd s.
Proof. unfold open_write. repeat case_match; intros; simplify_eq; done. Qed.

(** [os.chdir] changes no entry; when it completes, the working
    directory is the path it resolved. *)
Lemma chdir_raised path s e s' : chdir path s = (Raised e, s') -> s' = s.
Proof. unfold chdir. repeat case_match; intros; by simplify_eq. Qed.

Lemma chdir_normal path s u s' :
  chdir path s = (Normal u, s') -> fs s' = fs s /\ cwd s' = resolve (cwd s) path.
Proof. unfold chdir. repeat case_match; intros; simplify_eq; by split. Qed.

#[export] Hint Resolve print_frame path_exists_frame path_isdir_frame read_file_frame : fsdb.

End Os.
