(* ===== verification/Pillow.v ===== *)
(** * Pillow: the image library the script calls

    [process_logo.py] reaches Pillow through [Image.open], [Image.convert],
    [Image.resize] and [Image.save].  Pillow is a library the repository
    only calls, so its raster algorithms (the codecs, the LANCZOS filter)
    are not modelled: [ImageLib] is the interface the script relies on,
    stated as a class whose laws are the library's documented behaviour
    (a conversion yields the requested mode at the same size, a resize
    yields exactly the requested size in the same mode, PNG and ICO files
    begin with their format's signature, a PNG file reads back at the size
    written and an icon does at the sizes Pillow writes in an icon).
    On top of the interface, the four calls are modelled after Pillow's
    [PIL/Image.py]: what they read and write, in which order, and which
    exception each failure raises.  [RefImage] is an instance of the class
    (a raster reduced to its size and mode, with a codec of its own) which
    shows that the laws can be met together and on which the witnesses of
    the development compute. *)

From stdpp Require Import base list strings.
From Stdlib Require Import String NArith Init.Byte.
From Stdlib Require Strings.Byte.
From S2P Require Import Prelude Paths Os.

Module Pillow.
Import Os PosixPath.

(** Pillow's modes ([Image.MODES]), named after their strings. *)
Inductive mode : Type :=
  | Mode_1 | Mode_L | Mode_LA | Mode_P | Mode_PA
  | Mode_RGB | Mode_RGBA | Mode_CMYK | Mode_YCbCr | Mode_I | Mode_F.

#[export] Instance mode_eq_dec : EqDecision mode.
Proof. solve_decision. Defined.

Definition mode_of_string (s : string) : option mode :=
  if String.eqb s "1" then Some Mode_1
  else if String.eqb s "L" then Some Mode_L
  else if String.eqb s "LA" then Some Mode_LA
  else if String.eqb s "P" then Some Mode_P
  else if String.eqb s "PA" then Some Mode_PA
  else if String.eqb s "RGB" then Some Mode_RGB
  else if String.eqb s "RGBA" then Some Mode_RGBA
  else if String.eqb s "CMYK" then Some Mode_CMYK
  else if String.eqb s "YCbCr" then Some Mode_YCbCr
  else if String.eqb s "I" then Some Mode_I
  else if String.eqb s "F" then Some Mode_F
  else None.

(** [Image.Resampling] *)
Inductive resampling : Type := NEAREST | LANCZOS | BILINEAR | BICUBIC | BOX | HAMMING.

(** The two save handlers the script selects. *)
Inductive image_format : Type := PNG | ICO.

(** [SAVE[format.upper()]]: the registry is keyed by upper-case names. *)
Definition ascii_upper (c : Ascii.ascii) : Ascii.ascii :=
  let n := Ascii.nat_of_ascii c in
  if (97 <=? n) && (n <=? 122) then Ascii.ascii_of_nat (n - 32) else c.

Fixpoint upper (s : string) : string :=
  match s with
  | EmptyString => EmptyString
  | String c rest => String (ascii_upper c) (upper rest)
  end.

Definition format_of_string (s : string) : option image_format :=
  let u := upper s in
  if String.eqb u "PNG" then Some PNG
  else if String.eqb u "ICO" then Some ICO
  else None.

(** The first bytes of a file of each format: the PNG signature, and the
    ICONDIR header of an icon file (reserved 0, type 1). *)
Definition format_magic (fmt : image_format) : list byte :=
  match fmt with
  | PNG => [x89; x50; x4e; x47; x0d; x0a; x1a; x0a]
  | ICO => [x00; x00; x01; x00]
  end.

(** The largest side a format stores: 2^31-1 for PNG, 256 for an icon. *)
Definition format_max_side (fmt : image_format) : N :=
  match fmt with PNG => 2147483647 | ICO => 256 end.

Definition fits (fmt : image_format) (wh : nat * nat) : Prop :=
  1 <= wh.1 /\ 1 <= wh.2 /\
  (N.of_nat wh.1 <= format_max_side fmt)%N /\ (N.of_nat wh.2 <= format_max_side fmt)%N.

(** The sizes Pillow's ICO plugin writes by default
    ([IcoImagePlugin._save]): an icon holds those of them that are not
    larger than the image, each a thumbnail of it, and reads back at the
    largest.  An icon therefore reads back at the size of the image saved
    exactly when that size is one of them. *)
Definition ico_sizes : list (nat * nat) :=
  [(16, 16); (24, 24); (32, 32); (48, 48); (64, 64); (128, 128); (256, 256)].

(** A raster of this size, saved in this format, reads back at its size. *)
Definition reads_back (fmt : image_format) (wh : nat * nat) : Prop :=
  match fmt with
  | PNG => fits PNG wh
  | ICO => fits ICO wh /\ wh ∈ ico_sizes
  end.

(** What a save handler writes: all of the file, or the bytes written
    before it raised. *)
Inductive encode_result : Type :=
  | Encoded (data : list byte)
  | EncodeFailed (partial : list byte).

(** ** The interface *)
Class ImageLib := {
  raster : Type;
  raster_size : raster -> nat * nat;
  raster_mode : raster -> mode;
  (** [Image.open] and the decoding [load] it leads to: [None] when no
      plugin identifies the data. *)
  decode : list byte -> option raster;
  (** [None] when Pillow has no conversion between the two modes. *)
  convert_raster : mode -> raster -> option raster;
  resize_raster : nat * nat -> resampling -> raster -> raster;
  encode : image_format -> raster -> encode_result;

  convert_mode m r r' : convert_raster m r = Some r' -> raster_mode r' = m;
  convert_size m r r' : convert_raster m r = Some r' -> raster_size r' = raster_size r;
  resize_size wh f r : raster_size (resize_raster wh f r) = wh;
  resize_mode wh f r : raster_mode (resize_raster wh f r) = raster_mode r;
  encode_magic fmt r d : encode fmt r = Encoded d -> format_magic fmt `prefix_of` d;
  encode_decode fmt r :
    raster_mode r = Mode_RGBA -> reads_back fmt (raster_size r) ->
    exists d r', encode fmt r = Encoded d /\ decode d = Some r' /\
      raster_size r' = raster_size r /\ raster_mode r' = Mode_RGBA
}.

Section Calls.
Context `{ImageLib}.

(** [Image.open(fp)]: [builtins.open(fp, "rb")], then the plugins are
    tried on the data; [UnidentifiedImageError] when none accepts it. *)
Definition image_open (fp : string) : M raster :=
  data <- read_file fp ;;
  match decode data with
  | Some r => ret r
  | None => raise (UnidentifiedImageError fp)
  end.

(** [im.convert(mode)] *)
Definition image_convert (m : string) (r : raster) : M raster :=
  match mode_of_string m with
  | None => raise (ValueError "conversion not supported")
  | Some md =>
      match convert_raster md r with
      | Some r' => ret r'
      | None => raise (ValueError "conversion not supported")
      end
  end.

(** [im.resize(size, resample)]: a new image, no effect. *)
Definition image_resize (size : nat * nat) (f : resampling) (r : raster) : raster :=
  resize_raster size f r.

(** [im.save(filename, format)], after [Image.save]:
<<
    save_handler = SAVE[format.upper()]
    created = not os.path.exists(filename)
    fp = builtins.open(filename, "w+b")
    try:
        save_handler(self, fp, filename)
    except Exception:
        fp.close()
        if created:
            try:
                os.remove(filename)
            except PermissionError:
                pass
        raise
    fp.close()
>> *)
Definition image_save (r : raster) (filename format : string) : M unit :=
  match format_of_string format with
  | None => raise (KeyError (upper format))
  | Some fmt =>
      e <- path_exists filename ;;
      let created := negb e in
      fp <- open_write filename ;;
      match encode fmt r with
      | Encoded d => fwrite fp d
      | EncodeFailed partial =>
          fwrite fp partial ;;
          (if created then
             try_except (remove filename)
               (fun err => if is_PermissionError err then ret tt else raise err)
           else ret tt) ;;
          raise (EncoderError format)
      end
  end.
End Calls.

#[export] Instance fits_dec fmt wh : Decision (fits fmt wh).
Proof. unfold fits. apply _. Defined.

#[export] Instance reads_back_dec fmt wh : Decision (reads_back fmt wh).
Proof. unfold reads_back. destruct fmt; apply _. Defined.

Lemma reads_back_fits fmt wh : reads_back fmt wh -> fits fmt wh.
Proof. destruct fmt; [done|by intros [? _]]. Qed.

(** ** The calls: invariant and behaviour *)
Section CallLemmas.
Context `{ImageLib}.

Lemma image_open_wf fp : preserves state_wf (image_open fp).
Proof. unfold image_open. solve_preserves. Qed.

Lemma image_convert_wf m r : preserves state_wf (image_convert m r).
Proof. unfold image_convert. solve_preserves. Qed.

Lemma image_save_wf r filename format : preserves state_wf (image_save r filename format).
Proof. unfold image_save. solve_preserves. Qed.

Lemma image_open_ok fp d r s :
  state_wf s -> fs s !! resolve (cwd s) fp = Some (File d) -> decode d = Some r ->
  runs_to (image_open fp) s r s.
Proof.
  intros Hs Hf Hd. unfold image_open.
  eapply runs_to_bind; [|rewrite Hd; apply runs_to_ret].
  unfold runs_to, read_file. by rewrite (stat_path_file s fp d Hs Hf).
Qed.

Lemma image_open_missing fp s :
  state_wf s -> fs s !! resolve (cwd s) fp = None ->
  is_dir (fs s) (removelast (resolve (cwd s) fp)) = true ->
  raises (image_open fp) s (OSError ENOENT fp) s.
Proof.
  intros Hs Hn Hd. apply is_dir_spec in Hd as [w Hw]. unfold image_open.
  apply raises_bind_l. unfold raises, read_file.
  by rewrite (stat_run_absent fp _ w s Hs eq_refl Hn Hw).
Qed.

Lemma image_open_undecodable fp d s :
  state_wf s -> fs s !! resolve (cwd s) fp = Some (File d) -> decode d = None ->
  raises (image_open fp) s (UnidentifiedImageError fp) s.
Proof.
  intros Hs Hf Hd. unfold image_open.
  eapply raises_bind_r; [|rewrite Hd; apply raises_raise].
  unfold runs_to, read_file. by rewrite (stat_path_file s fp d Hs Hf).
Qed.

Lemma image_convert_fails m md r s :
  mode_of_string m = Some md -> convert_raster md r = None ->
  raises (image_convert m r) s (ValueError "conversion not supported") s.
Proof. intros Hm Hc. unfold image_convert. rewrite Hm, Hc. apply raises_raise. Qed.

Lemma image_convert_ok m md r r' s :
  mode_of_string m = Some md -> convert_raster md r = Some r' ->
  runs_to (image_convert m r) s r' s.
Proof. intros Hm Hc. unfold image_convert. rewrite Hm, Hc. apply runs_to_ret. Qed.

Lemma image_save_encoded r filename format fmt d s :
  state_wf s -> format_of_string format = Some fmt -> encode fmt r = Encoded d ->
  writable_path (fs s) (resolve (cwd s) filename) ->
  runs_to (image_save r filename format) s tt (after_write (resolve (cwd s) filename) d s).
Proof.
  intros Hs Hfmt Henc Hw. unfold image_save. rewrite Hfmt.
  eapply runs_to_bind; [apply path_exists_run|]. simpl.
  rewrite Henc. by apply open_write_fwrite.
Qed.
(** Saving over a directory: [open(filename, 'w+b')] raises
    [IsADirectoryError] before anything is written. *)
Lemma image_save_to_dir r filename format fmt s :
  state_wf s -> filename <> ""%string -> format_of_string format = Some fmt ->
  is_dir (fs s) (resolve (cwd s) filename) = true ->
  raises (image_save r filename format) s (OSError EISDIR filename) s.
Proof.
  intros Hs Hnm Hfmt Hd. apply is_dir_spec in Hd as [w Hw]. unfold image_save. rewrite Hfmt.
  eapply raises_bind_r; [apply path_exists_run|]. simpl.
  apply raises_bind_l. destruct Hs as [Hwf _]. unfold raises, open_write.
  rewrite empty_path_false by done.
  destruct (decide (resolve (cwd s) filename = [])) as [Hr|Hne].
  - rewrite Hr in Hw |- *. by rewrite Hw.
  - pose proof Hwf as [_ Hpar]. destruct (Hpar _ _ Hw Hne) as [wp Hwp].
    by rewrite (lookup_parent_dir _ Hwf _ wp Hwp), Hw.
Qed.
End CallLemmas.

#[export] Hint Resolve image_open_wf image_convert_wf image_save_wf : fsdb.

(** ** Which entries the calls change

    Opening and converting change nothing; saving changes only the entry
    of the file saved: it creates or truncates it, writes it, and removes
    it again when the encoder fails on a file it created. *)
Section CallFrames.
Context `{ImageLib} (T : list string -> list (list string)).

Lemma image_open_frame fp : guarantees (frame T) (image_open fp).
Proof.
  unfold image_open. solve_guarantees.
Qed.

Lemma image_convert_frame m r : guarantees (frame T) (image_convert m r).
Proof. unfold image_convert. solve_guarantees. Qed.

Lemma image_save_frame r filename format :
  touches_path T filename -> guarantees (frame T) (image_save r filename format).
Proof.
  intros Ht s. unfold image_save. destruct (format_of_string format) as [fmt|]; [|simpl; reflexivity].
  apply guarantees_bind_at; [apply _|apply path_exists_frame|]. intros e s1 He.
  apply guarantees_bind_at; [apply _|by apply open_write_frame|]. intros p s2 Hp.
  destruct (open_write_value _ _ _ _ Hp) as [-> Hcwd].
  assert (Hp2 : resolve (cwd s1) filename ∈ T (cwd s2)) by (rewrite Hcwd; apply Ht).
  destruct (encode fmt r) as [d|partial]; [by apply fwrite_frame_at|].
  apply guarantees_bind_at; [apply _|by apply fwrite_frame_at|]. intros [] s3 _.
  assert (guarantees (frame T) (remove filename)) by (by apply remove_frame).
  solve_guarantees.
Qed.
End CallFrames.

(** ** A reference instance

    A raster reduced to what the interface observes (its size and mode),
    with a codec of its own: the format's signature, a mode tag, and the
    width and height as 4-byte little-endian integers.  Conversions and
    resizes always succeed.  It is not Pillow's codec; it only shows the
    laws of [ImageLib] hold together, and lets witnesses run. *)
Module RefImage.
Record ref_raster : Type := RefRaster { rw : nat; rh : nat; rmode : mode }.

Definition mode_tag (m : mode) : byte :=
  match m with
  | Mode_1 => x00 | Mode_L => x01 | Mode_LA => x02 | Mode_P => x03
  | Mode_PA => x04 | Mode_RGB => x05 | Mode_RGBA => x06 | Mode_CMYK => x07
  | Mode_YCbCr => x08 | Mode_I => x09 | Mode_F => x0a
  end.

Definition all_modes : list mode :=
  [Mode_1; Mode_L; Mode_LA; Mode_P; Mode_PA; Mode_RGB; Mode_RGBA; Mode_CMYK;
   Mode_YCbCr; Mode_I; Mode_F].

Definition mode_of_tag (b : byte) : option mode :=
  snd <$> list_find (fun m => mode_tag m = b) all_modes.

(** The low byte of [n]. *)
Definition byte_of (n : N) : byte :=
  match Byte.of_N (n mod 256) with Some b => b | None => x00 end.

Fixpoint le_bytes (k : nat) (n : N) : list byte :=
  match k with
  | O => []
  | S k => byte_of n :: le_bytes k (n / 256)
  end.

Fixpoint le_value (l : list byte) : N :=
  match l with
  | [] => 0
  | b :: l => Byte.to_N b + 256 * le_value l
  end.

Definition ref_encode (fmt : image_format) (r : ref_raster) : encode_result :=
  if decide (fits fmt (rw r, rh r)) then
    Encoded (format_magic fmt ++ [mode_tag (rmode r)] ++
             le_bytes 4 (N.of_nat (rw r)) ++ le_bytes 4 (N.of_nat (rh r)))
  else EncodeFailed (format_magic fmt).

Definition parse_body (body : list byte) : option ref_raster :=
  match body with
  | t :: dims =>
      match mode_of_tag t with
      | Some m =>
          if decide (List.length dims = 8) then
            Some (RefRaster (N.to_nat (le_value (take 4 dims)))
                            (N.to_nat (le_value (drop 4 dims))) m)
          else None
      | None => None
      end
  | [] => None
  end.

Definition ref_decode (d : list byte) : option ref_raster :=
  if decide (format_magic PNG `prefix_of` d) then parse_body (drop 8 d)
  else if decide (format_magic ICO `prefix_of` d) then parse_body (drop 4 d)
  else None.

Definition ref_size (r : ref_raster) : nat * nat := (rw r, rh r).
Definition ref_convert (m : mode) (r : ref_raster) : option ref_raster :=
  Some (RefRaster (rw r) (rh r) m).
Definition ref_resize (wh : nat * nat) (f : resampling) (r : ref_raster) : ref_raster :=
  RefRaster wh.1 wh.2 (rmode r).

Lemma byte_of_to_N n : Byte.to_N (byte_of n) = (n mod 256)%N.
Proof.
  unfold byte_of. destruct (Byte.of_N (n mod 256)) eqn:E.
  - by apply Byte.to_of_N.
  - apply Byte.of_N_None_iff in E.
    pose proof (N.mod_lt n 256 ltac:(lia)). lia.
Qed.

Lemma le_value_bytes k n : le_value (le_bytes k n) = (n mod 256 ^ N.of_nat k)%N.
Proof.
  revert n. induction k as [|k IH]; intros n; simpl.
  - by rewrite N.mod_1_r.
  - rewrite byte_of_to_N, IH, Nnat.Nat2N.inj_succ, N.pow_succ_r'.
    rewrite (N.Div0.mod_mul_r n 256). lia.
Qed.

Lemma length_le_bytes k n : List.length (le_bytes k n) = k.
Proof. revert n. induction k; intros n; simpl; auto. Qed.

Lemma mode_of_tag_tag m : mode_of_tag (mode_tag m) = Some m.
Proof. by destruct m. Qed.

Lemma le_value_4 (n : nat) :
  (N.of_nat n <= 2147483647)%N -> N.to_nat (le_value (le_bytes 4 (N.of_nat n))) = n.
Proof.
  intros Hn. rewrite le_value_bytes, N.mod_small; [apply Nnat.Nat2N.id|].
  simpl. lia.
Qed.

Lemma parse_body_encode m w h :
  (N.of_nat w <= 2147483647)%N -> (N.of_nat h <= 2147483647)%N ->
  parse_body ([mode_tag m] ++ le_bytes 4 (N.of_nat w) ++ le_bytes 4 (N.of_nat h)) =
  Some (RefRaster w h m).
Proof.
  intros Hw Hh. unfold parse_body. cbn [app]. rewrite mode_of_tag_tag.
  rewrite decide_True by (rewrite length_app, !length_le_bytes; done).
  rewrite take_app_length' by (by rewrite length_le_bytes).
  rewrite drop_app_length' by (by rewrite length_le_bytes).
  by rewrite !le_value_4.
Qed.

Lemma ref_encode_decode fmt r :
  rmode r = Mode_RGBA -> fits fmt (ref_size r) ->
  exists d r', ref_encode fmt r = Encoded d /\ ref_decode d = Some r' /\
    ref_size r' = ref_size r /\ rmode r' = Mode_RGBA.
Proof.
  intros Hm Hfit. unfold ref_encode, ref_size in *.
  rewrite decide_True by done. eexists _, _. split; [reflexivity|].
  destruct Hfit as (_ & _ & Hw & Hh).
  assert (Hw' : (N.of_nat (rw r) <= 2147483647)%N) by (destruct fmt; simpl in *; lia).
  assert (Hh' : (N.of_nat (rh r) <= 2147483647)%N) by (destruct fmt; simpl in *; lia).
  unfold ref_decode. destruct fmt.
  - rewrite decide_True by (by eexists).
    rewrite drop_app_length' by done. rewrite parse_body_encode by done.
    split; [reflexivity|]. by rewrite <- Hm.
  - rewrite decide_False by (by intros [? ?]).
    rewrite decide_True by (by eexists).
    rewrite drop_app_length' by done. rewrite parse_body_encode by done.
    split; [reflexivity|]. by rewrite <- Hm.
Qed.

Lemma ref_encode_magic fmt r d :
  ref_encode fmt r = Encoded d -> format_magic fmt `prefix_of` d.
Proof.
  unfold ref_encode. case_decide; [|done]. intros [= <-]. by eexists.
Qed.

#[export] Instance ref_image_lib : ImageLib := {|
  raster := ref_raster;
  raster_size := ref_size;
  raster_mode := rmode;
  decode := ref_decode;
  convert_raster := ref_convert;
  resize_raster := ref_resize;
  encode := ref_encode;
  convert_mode m r r' H := f_equal rmode (eq_sym (Some_inj _ _ H));
  convert_size m r r' H := f_equal ref_size (eq_sym (Some_inj _ _ H));
  resize_size wh f r := eq_sym (surjective_pairing wh);
  resize_mode wh f r := eq_refl;
  encode_magic := ref_encode_magic;
  encode_decode fmt r Hm Hr := ref_encode_decode fmt r Hm (reads_back_fits fmt _ Hr)
|}.
End RefImage.

End Pillow.
