(* ===== verification/ProcessLogo.v ===== *)
(** * ProcessLogo: [src/scripts/process_logo.py]

    The script itself, over the runtime of [Os] and the image interface of
    [Pillow]: [create_logo_variants] (lines 4-32) makes the output
    directory, opens and converts the logo, writes one PNG per entry of
    [sizes] and the favicon; [main] (lines 34-49) is the [__main__] block,
    which moves to the project root and runs the generator when [logo.png]
    exists.  The theorems describe a run completely: what it writes and
    prints when it succeeds, what each failure raises and leaves behind. *)

From stdpp Require Import base gmap list strings.
From Stdlib Require Import String Init.Byte.
From S2P Require Import Prelude Paths Os Pillow.

Module ProcessLogo.
Import Os PosixPath Pillow.

Section Script.
Context `{ImageLib}.

(** [sizes = {'sm': 64, 'md': 128, 'lg': 256}]: a dict, iterated by
    [.items()] in insertion order. *)
Definition sizes : list (string * nat) :=
  [("sm", 64); ("md", 128); ("lg", 256)].

(** [f'public/images/logo-{name}.png'] *)
Definition variant_path (name : string) : string :=
  "public/images/logo-" +:+ name +:+ ".png".

Definition favicon_path : string := "public/images/favicon.ico".

(** The body of the [for name, size in sizes.items()] loop. *)
Definition save_variant (img : raster) (entry : string * nat) : M unit :=
  let '(name, size) := entry in
  let resized := image_resize (size, size) LANCZOS img in
  let output_path := variant_path name in
  image_save resized output_path "PNG" ;;
  print ("Created " +:+ output_path).

(** [create_logo_variants(input_path)] *)
Definition create_logo_variants (input_path : string) : M unit :=
  makedirs "public/images" true ;;
  img0 <- image_open input_path ;;
  img <- image_convert "RGBA" img0 ;;
  for_each sizes (save_variant img) ;;
  let favicon := image_resize (32, 32) LANCZOS img in
  image_save favicon favicon_path "ICO" ;;
  print ("Created " +:+ favicon_path).

(** The body of the [__main__] block once in the project root. *)
Definition main_body : M unit :=
  let input_path := "logo.png" in
  e <- path_exists input_path ;;
  if e then
    create_logo_variants input_path ;;
    print "Logo processing completed successfully!"
  else
    print ("Error: Could not find logo file at " +:+ input_path) ;;
    print "Please place the logo.png file in the project root directory.".

(** The [if __name__ == '__main__':] block, run with [__file__] = [file]. *)
Definition main (file : string) : M unit :=
  script_dir <- gets (fun s => dirname (abspath (cwd s) file)) ;;
  let project_root := dirname script_dir in
  chdir project_root ;;
  main_body.

(** The interpreter around [main]: exit status 0 when it completes,
    1 when an exception escapes it (after the traceback). *)
Definition run_script (file : string) (s : state) : nat * state :=
  match main file s with
  | (Normal _, s') => (0, s')
  | (Raised _, s') => (1, s')
  end.
End Script.

(** ** The output directory

    [os.makedirs('public/images', exist_ok=True)] below the working
    directory [R]: it creates [R/public] and [R/public/images] when they
    are missing, and completes when [public/images] ends up a directory. *)

Definition public_dir (R : list string) : list string := R ++ ["public"].
Definition output_dir (R : list string) : list string := R ++ ["public"; "images"].

(** When the call completes: [public] is a directory, and [images] below
    it is one or can be made; or [public] is missing and the working
    directory is writable. *)
Definition output_dir_ready (f : fsys) (R : list string) : Prop :=
  match f !! public_dir R with
  | Some (File _) => False
  | Some (Dir wp) =>
      match f !! output_dir R with
      | Some (Dir _) => True
      | Some (File _) => False
      | None => wp = true
      end
  | None => f !! R = Some (Dir true)
  end.

(** The directories the call creates, in order. *)
Definition missing_dirs (f : fsys) (R : list string) : list (list string) :=
  filter (fun p => f !! p = None) [public_dir R; output_dir R].

Definition mkdir_all (ps : list (list string)) (s : state) : state :=
  foldl (fun s p => emit (EvMkdir p) (set_fs (<[p := Dir true]> (fs s)) s)) s ps.

Lemma resolve_public R : resolve R "public" = public_dir R.
Proof. by apply resolve_relative. Qed.

Lemma resolve_public_images R : resolve R "public/images" = output_dir R.
Proof. by apply resolve_relative. Qed.

Lemma removelast_public R : removelast (public_dir R) = R.
Proof. apply removelast_snoc. Qed.

Lemma output_dir_snoc R : output_dir R = public_dir R ++ ["images"].
Proof. unfold output_dir, public_dir. by rewrite <- app_assoc. Qed.

Lemma removelast_output_dir R : removelast (output_dir R) = public_dir R.
Proof. by rewrite output_dir_snoc, removelast_snoc. Qed.

Lemma output_dir_ne_public R : output_dir R <> public_dir R.
Proof. unfold output_dir, public_dir. intros Heq. by apply app_inv_head in Heq. Qed.

Lemma path_isdir_run path s :
  runs_to (path_isdir path) s
    (match stat_path s path with inr (Dir _) => true | _ => false end) s.
Proof. reflexivity. Qed.

Lemma makedirs_output_dir s :
  state_wf s -> output_dir_ready (fs s) (cwd s) ->
  runs_to (makedirs "public/images" true) s tt (mkdir_all (missing_dirs (fs s) (cwd s)) s).
Proof.
  intros Hs Hr. pose proof Hs as [Hwf [wR HR]].
  unfold makedirs. cbn [String.length makedirs_fuel].
  change (split "public/images") with ("public", "images")%string.
  cbn - [path_exists mkdir path_isdir mkdir_all missing_dirs].
  unfold output_dir_ready, missing_dirs in *.
  destruct (fs s !! public_dir (cwd s)) as [[wp|d]|] eqn:HP; [|done|].
  - eapply runs_to_bind.
    { eapply runs_to_bind; [apply path_exists_run|].
      rewrite (stat_run_present "public" _ _ _ Hs ltac:(discriminate) (resolve_public _) HP). apply runs_to_ret. }
    cbv beta iota. rewrite filter_cons_False by (by rewrite HP).
    destruct (fs s !! output_dir (cwd s)) as [[wi|d]|] eqn:HI; [|done|].
    + rewrite filter_cons_False by (by rewrite HI).
      eapply runs_to_try_handled;
        [eapply mkdir_present; [exact Hs|discriminate|apply resolve_public_images|exact HI]|].
      eapply runs_to_bind; [apply path_isdir_run|].
      rewrite (stat_run_present "public/images" _ _ _ Hs ltac:(discriminate) (resolve_public_images _) HI). apply runs_to_ret.
    + subst wp. rewrite filter_cons_True by done. apply runs_to_try_ok.
      apply mkdir_new; [done|apply resolve_public_images|done|].
      by rewrite removelast_output_dir.
  - rewrite filter_cons_True by done.
    assert (HI : fs s !! output_dir (cwd s) = None).
    { destruct (fs s !! output_dir (cwd s)) as [n|] eqn:HI; [|done].
      destruct Hwf as [_ Hpar]. destruct (Hpar _ n HI) as [w Hw].
      - unfold output_dir. intros Hnil. by apply app_eq_nil in Hnil as [_ ?].
      - rewrite removelast_output_dir in Hw. congruence. }
    rewrite filter_cons_True by done.
    eapply runs_to_bind.
    { eapply runs_to_bind; [apply path_exists_run|].
      rewrite (stat_run_absent _ _ _ _ Hs (resolve_public _) HP)
        by (rewrite removelast_public; exact HR).
      eapply runs_to_bind; [|apply runs_to_ret].
      apply runs_to_try_ok. eapply runs_to_bind; [apply runs_to_ret|].
      apply runs_to_try_ok. apply mkdir_new; [done|apply resolve_public|done|].
      by rewrite removelast_public. }
    cbv beta iota. apply runs_to_try_ok.
    apply mkdir_new.
    + eapply runs_to_wf; [apply mkdir_wf|exact Hs|].
      apply mkdir_new; [done|apply resolve_public|done|by rewrite removelast_public].
    + apply resolve_public_images.
    + simpl. rewrite lookup_insert_ne; [done|]. apply not_eq_sym, output_dir_ne_public.
    + simpl. rewrite removelast_output_dir. apply lookup_insert_eq.
Qed.

(** When the directory cannot be made, [makedirs] raises an [OSError]
    and leaves the state as it found it. *)
Lemma makedirs_output_dir_fails s :
  state_wf s -> ~ output_dir_ready (fs s) (cwd s) ->
  exists err fname, raises (makedirs "public/images" true) s (OSError err fname) s.
Proof.
  intros Hs Hr. pose proof Hs as [Hwf [wR HR]].
  unfold makedirs. cbn [String.length makedirs_fuel].
  change (split "public/images") with ("public", "images")%string.
  cbn - [path_exists mkdir path_isdir].
  unfold output_dir_ready in Hr.
  assert (Hne : public_dir (cwd s) <> []).
  { unfold public_dir. intros Hn. by apply app_eq_nil in Hn as [_ ?]. }
  destruct (fs s !! public_dir (cwd s)) as [[wp|dp]|] eqn:HP.
  - destruct (fs s !! output_dir (cwd s)) as [[wi|di]|] eqn:HI; [done| |];
      eexists _, _; (eapply raises_bind_r;
      [eapply runs_to_bind; [apply path_exists_run|];
       rewrite (stat_run_present "public" _ _ _ Hs ltac:(discriminate) (resolve_public _) HP); apply runs_to_ret|]);
      cbv beta iota.
    + eapply raises_try_handled;
        [eapply mkdir_present; [exact Hs|discriminate|apply resolve_public_images|exact HI]|].
      eapply raises_bind_r; [apply path_isdir_run|].
      rewrite (stat_run_present "public/images" _ _ _ Hs ltac:(discriminate) (resolve_public_images _) HI). apply raises_raise.
    + destruct wp; [done|].
      eapply raises_try_handled; [eapply mkdir_readonly; [exact Hs|apply resolve_public_images|exact HI|by rewrite removelast_output_dir]|].
      eapply raises_bind_r; [apply path_isdir_run|].
      rewrite (stat_run_absent _ _ _ _ Hs (resolve_public_images _) HI)
        by (rewrite removelast_output_dir; exact HP).
      apply raises_raise.
  - assert (Hlp : lookup_parent (fs s) (output_dir (cwd s)) = Some ENOTDIR).
    { rewrite output_dir_snoc. by apply (lookup_parent_under_file _ _ _ dp). }
    eexists _, _. eapply raises_bind_r.
    { eapply runs_to_bind; [apply path_exists_run|].
      rewrite (stat_run_present "public" _ _ _ Hs ltac:(discriminate) (resolve_public _) HP). apply runs_to_ret. }
    cbv beta iota.
    eapply raises_try_handled; [eapply mkdir_parent_error; [discriminate|apply resolve_public_images|exact Hlp]|].
    eapply raises_bind_r; [apply path_isdir_run|].
    unfold stat_path, stat. rewrite empty_path_false by discriminate.
    rewrite resolve_public_images, Hlp. apply raises_raise.
  - assert (wR = false) as -> by (destruct wR; congruence).
    eexists _, _. apply raises_bind_l.
    eapply raises_bind_r; [apply path_exists_run|].
    rewrite (stat_run_absent _ _ _ _ Hs (resolve_public _) HP) by (rewrite removelast_public; exact HR).
    apply raises_bind_l. eapply raises_try_handled.
    { eapply raises_bind_r; [apply runs_to_ret|].
      eapply raises_try_handled;
        [eapply mkdir_readonly; [exact Hs|apply resolve_public|exact HP|by rewrite removelast_public]|].
      eapply raises_bind_r; [apply path_isdir_run|].
      rewrite (stat_run_absent _ _ _ _ Hs (resolve_public _) HP)
        by (rewrite removelast_public; exact HR).
      apply raises_raise. }
    apply raises_raise.
Qed.

(** ** What a completed run leaves *)

Definition variant_file (R : list string) (name : string) : list string :=
  R ++ ["public"; "images"; "logo-" +:+ name +:+ ".png"].
Definition favicon_file (R : list string) : list string :=
  R ++ ["public"; "images"; "favicon.ico"].
Definition output_files (R : list string) : list (list string) :=
  map (fun e => variant_file R e.1) sizes ++ [favicon_file R].

(** The entries the script may change, from the directory it runs in. *)
Definition touched (R : list string) : list (list string) :=
  public_dir R :: output_dir R :: output_files R.

Section Outputs.
Context `{ImageLib}.

(** The bytes a save handler writes. *)
Definition encoded (fmt : image_format) (r : raster) : list byte :=
  match encode fmt r with Encoded d => d | EncodeFailed d => d end.

Definition variant_written (r : raster) (st : state) (entry : string * nat) : state :=
  let '(name, size) := entry in
  emit (EvPrint ("Created " +:+ variant_path name))
    (after_write (variant_file (cwd st) name)
       (encoded PNG (image_resize (size, size) LANCZOS r)) st).

Definition favicon_written (r : raster) (st : state) : state :=
  emit (EvPrint ("Created " +:+ favicon_path))
    (after_write (favicon_file (cwd st))
       (encoded ICO (image_resize (32, 32) LANCZOS r)) st).

(** The state a completed [create_logo_variants] leaves, for the
    converted image [r]: the missing directories made, then each
    variant written and announced, then the favicon. *)
Definition generated (r : raster) (s : state) : state :=
  favicon_written r
    (foldl (variant_written r) (mkdir_all (missing_dirs (fs s) (cwd s)) s) sizes).
End Outputs.

(** The conditions under which a run completes, on the state it starts
    from: the output directory can be made, it is (or will be) writable,
    and no output path is a directory. *)
Definition images_writable (f : fsys) (R : list string) : Prop :=
  match f !! output_dir R with
  | Some (Dir w) => w = true
  | Some (File _) => False
  | None => True
  end.

Definition outputs_ok (f : fsys) (R : list string) : Prop :=
  output_dir_ready f R /\ images_writable f R /\
  Forall (fun o => is_dir f o = false) (output_files R).

#[export] Instance outputs_ok_dec f R : Decision (outputs_ok f R).
Proof. unfold outputs_ok, output_dir_ready, images_writable. repeat case_match; apply _. Defined.

(** Between the writes: the outputs still to write can be opened. *)
Definition outputs_ready (R : list string) (todo : list (list string)) (st : state) : Prop :=
  state_wf st /\ cwd st = R /\ fs st !! output_dir R = Some (Dir true) /\
  Forall (fun o => is_dir (fs st) o = false) todo.

(** *** Lemmas on the states of a run *)

Lemma mkdir_all_cwd ps s : cwd (mkdir_all ps s) = cwd s.
Proof. revert s. induction ps as [|p ps IH]; intros s; [done|]. simpl. by rewrite IH. Qed.

Lemma mkdir_all_lookup_ne ps s q :
  q ∉ ps -> fs (mkdir_all ps s) !! q = fs s !! q.
Proof.
  revert s. induction ps as [|p ps IH]; intros s Hq; [done|].
  apply not_elem_of_cons in Hq as [Hqp Hq]. simpl. rewrite IH by done.
  simpl. by rewrite lookup_insert_ne.
Qed.

Lemma mkdir_all_lookup_in ps s q :
  q ∈ ps -> fs (mkdir_all ps s) !! q = Some (Dir true).
Proof.
  revert s. induction ps as [|p ps IH]; intros s Hq; [by apply not_elem_of_nil in Hq|].
  simpl. destruct (decide (q ∈ ps)) as [Hin|Hnin]; [by apply IH|].
  apply elem_of_cons in Hq as [->|]; [|done].
  rewrite mkdir_all_lookup_ne by done. apply lookup_insert_eq.
Qed.

Lemma output_files_nodup R : NoDup (output_files R).
Proof.
  change (output_files R) with
    (map (fun c => R ++ ["public"; "images"; c])
       ["logo-sm.png"; "logo-md.png"; "logo-lg.png"; "favicon.ico"]).
  apply NoDup_fmap_2; [|apply (bool_decide_unpack _); vm_compute; reflexivity].
  intros x y Hxy. apply app_inv_head in Hxy. congruence.
Qed.

Lemma output_files_ne_dirs R :
  Forall (fun o => o <> output_dir R /\ o <> public_dir R) (output_files R).
Proof.
  repeat constructor; intros Heq; apply app_inv_head in Heq; discriminate.
Qed.

Lemma variant_file_parent R name : removelast (variant_file R name) = output_dir R.
Proof.
  unfold variant_file, output_dir.
  change ["public"; "images"; "logo-" +:+ name +:+ ".png"]
    with (["public"; "images"] ++ ["logo-" +:+ name +:+ ".png"]).
  by rewrite app_assoc, removelast_snoc.
Qed.

Lemma favicon_file_parent R : removelast (favicon_file R) = output_dir R.
Proof.
  unfold favicon_file, output_dir.
  change ["public"; "images"; "favicon.ico"] with (["public"; "images"] ++ ["favicon.ico"]).
  by rewrite app_assoc, removelast_snoc.
Qed.

Lemma variant_file_ne R name : variant_file R name <> output_dir R.
Proof. intros Heq. by apply app_inv_head in Heq. Qed.

Lemma favicon_file_ne R : favicon_file R <> output_dir R.
Proof. intros Heq. by apply app_inv_head in Heq. Qed.

Lemma elem_of_missing_dirs f R q :
  q ∈ missing_dirs f R <-> (q = public_dir R \/ q = output_dir R) /\ f !! q = None.
Proof.
  unfold missing_dirs. rewrite list_elem_of_filter, !elem_of_cons.
  rewrite elem_of_nil. naive_solver.
Qed.

(** The names of [sizes] make plain relative paths, and every size fits
    a PNG file. *)
Lemma sizes_paths R :
  Forall (fun e => resolve R (variant_path e.1) = variant_file R e.1 /\ reads_back PNG (e.2, e.2)) sizes.
Proof.
  repeat constructor; try (apply resolve_relative; reflexivity); unfold fits; simpl; lia.
Qed.

Section RunLemmas.
Context `{ImageLib}.

Lemma encode_resized fmt r size :
  raster_mode r = Mode_RGBA -> reads_back fmt (size, size) ->
  encode fmt (image_resize (size, size) LANCZOS r) =
    Encoded (encoded fmt (image_resize (size, size) LANCZOS r)).
Proof.
  intros Hm Hf.
  destruct (encode_decode fmt (image_resize (size, size) LANCZOS r)) as (d & r' & He & _).
  - unfold image_resize. by rewrite resize_mode.
  - unfold image_resize. by rewrite resize_size.
  - unfold encoded. by rewrite He.
Qed.

Lemma ready_writable R o todo st :
  outputs_ready R (o :: todo) st -> removelast o = output_dir R -> writable_path (fs st) o.
Proof.
  intros (_ & _ & Hdir & Ho) Hpar. apply Forall_cons in Ho as [Ho _].
  unfold writable_path, is_dir in *. destruct (fs st !! o) as [[w|d]|] eqn:E; [done|done|].
  unfold parent_writable. by rewrite Hpar, Hdir.
Qed.

Lemma ready_after_write R o todo st ev d :
  outputs_ready R (o :: todo) st -> NoDup (o :: todo) ->
  o <> output_dir R -> removelast o = output_dir R ->
  outputs_ready R todo (emit ev (after_write o d st)).
Proof.
  intros Hr Hnd Hne Hpar. pose proof (ready_writable _ _ _ _ Hr Hpar) as Hw.
  destruct Hr as (Hs & Hcwd & Hdir & Ho).
  apply NoDup_cons in Hnd as [Hnin _]. apply Forall_cons in Ho as [_ Ho].
  split; [by apply after_write_wf|]. simpl. split; [done|].
  rewrite lookup_insert_ne by congruence. split; [done|].
  rewrite Forall_forall in Ho |- *. intros q Hq. unfold is_dir. simpl.
  rewrite lookup_insert_ne; [by apply Ho|]. intros ->. by apply Hnin.
Qed.

(** One output: save it, then print its line. *)
Lemma write_output_step R todo st r fmt format path o :
  outputs_ready R (o :: todo) st -> NoDup (o :: todo) ->
  o <> output_dir R -> removelast o = output_dir R ->
  resolve R path = o -> format_of_string format = Some fmt ->
  encode fmt r = Encoded (encoded fmt r) ->
  runs_to (image_save r path format ;; print ("Created " +:+ path)) st tt
    (emit (EvPrint ("Created " +:+ path)) (after_write o (encoded fmt r) st)) /\
  outputs_ready R todo (emit (EvPrint ("Created " +:+ path)) (after_write o (encoded fmt r) st)).
Proof.
  intros Hr Hnd Hne Hpar Hres Hfmt Henc. split; [|by apply ready_after_write].
  pose proof (ready_writable _ _ _ _ Hr Hpar) as Hw.
  destruct Hr as (Hs & Hcwd & _).
  eapply runs_to_bind; [|reflexivity].
  rewrite <- Hres, <- Hcwd. apply (image_save_encoded _ _ _ fmt); [done|done|done|].
  by rewrite Hcwd, Hres.
Qed.

Lemma variants_run R r es todo st :
  outputs_ready R (map (fun e => variant_file R e.1) es ++ todo) st ->
  NoDup (map (fun e => variant_file R e.1) es ++ todo) ->
  Forall (fun e => resolve R (variant_path e.1) = variant_file R e.1 /\ reads_back PNG (e.2, e.2)) es ->
  raster_mode r = Mode_RGBA ->
  runs_to (for_each es (save_variant r)) st tt (foldl (variant_written r) st es) /\
  outputs_ready R todo (foldl (variant_written r) st es).
Proof.
  revert st. induction es as [|[name size] es IH]; intros st Hr Hnd Hes Hm.
  - split; [apply runs_to_ret|done].
  - apply Forall_cons in Hes as [[Hres Hfit] Hes].
    destruct (write_output_step R (map (fun e => variant_file R e.1) es ++ todo) st
                (image_resize (size, size) LANCZOS r) PNG "PNG" (variant_path name)
                (variant_file R name)) as [Hrun Hready];
      [done|done|apply variant_file_ne|apply variant_file_parent|done|done
      |by apply encode_resized|].
    assert (Hst : variant_written r st (name, size) =
      emit (EvPrint ("Created " +:+ variant_path name))
        (after_write (variant_file R name)
           (encoded PNG (image_resize (size, size) LANCZOS r)) st)).
    { destruct Hr as (_ & Hcwd & _). by rewrite <- Hcwd. }
    rewrite <- Hst in Hrun, Hready.
    apply NoDup_cons in Hnd as [_ Hnd].
    destruct (IH _ Hready Hnd Hes Hm) as [Hrest Hfin].
    split; [|done]. eapply runs_to_bind; [exact Hrun|exact Hrest].
Qed.
End RunLemmas.

(** ** A run that completes *)
Section Success.
Context `{ImageLib}.

Lemma ready_after_makedirs_for s os :
  state_wf s -> output_dir_ready (fs s) (cwd s) -> images_writable (fs s) (cwd s) ->
  Forall (fun o => is_dir (fs s) o = false /\ o <> public_dir (cwd s) /\ o <> output_dir (cwd s)) os ->
  outputs_ready (cwd s) os (mkdir_all (missing_dirs (fs s) (cwd s)) s).
Proof.
  intros Hs Hready Himg Hos.
  split; [eapply runs_to_wf; [apply makedirs_wf|exact Hs|by apply makedirs_output_dir]|].
  split; [apply mkdir_all_cwd|]. split.
  - unfold images_writable in Himg.
    destruct (fs s !! output_dir (cwd s)) as [[w|]|] eqn:HI; [|done|].
    + subst w. rewrite mkdir_all_lookup_ne; [done|].
      rewrite elem_of_missing_dirs. intros [_ ?]. congruence.
    + apply mkdir_all_lookup_in, elem_of_missing_dirs. auto.
  - rewrite Forall_forall in Hos |- *. intros o Ho. unfold is_dir.
    destruct (Hos o Ho) as (Hd & Hp & Hq).
    rewrite mkdir_all_lookup_ne; [exact Hd|].
    rewrite elem_of_missing_dirs. naive_solver.
Qed.

Lemma ready_after_makedirs s :
  state_wf s -> outputs_ok (fs s) (cwd s) ->
  outputs_ready (cwd s) (output_files (cwd s)) (mkdir_all (missing_dirs (fs s) (cwd s)) s).
Proof.
  intros Hs (Hready & Himg & Houts). apply ready_after_makedirs_for; [done..|].
  pose proof (output_files_ne_dirs (cwd s)) as Hne.
  rewrite Forall_forall in Houts, Hne |- *. intros o Ho.
  destruct (Hne o Ho). split; [by apply Houts|done].
Qed.

(** The run, step by step: the output directory, the image, the three
    variants in the order of [sizes], the favicon. *)
Lemma create_logo_variants_run s input d r0 r :
  state_wf s -> outputs_ok (fs s) (cwd s) ->
  fs s !! resolve (cwd s) input = Some (File d) ->
  decode d = Some r0 -> convert_raster Mode_RGBA r0 = Some r ->
  runs_to (create_logo_variants input) s tt (generated r s).
Proof.
  intros Hs Hok Hin Hdec Hconv.
  pose proof (ready_after_makedirs s Hs Hok) as Hs1.
  set (s1 := mkdir_all (missing_dirs (fs s) (cwd s)) s) in *.
  assert (Hin1 : fs s1 !! resolve (cwd s1) input = Some (File d)).
  { unfold s1. rewrite mkdir_all_cwd, mkdir_all_lookup_ne; [done|].
    rewrite elem_of_missing_dirs. intros [_ ?]. congruence. }
  pose proof (convert_mode _ _ _ Hconv) as Hm.
  unfold create_logo_variants.
  eapply runs_to_bind; [by apply makedirs_output_dir, Hok|].
  eapply runs_to_bind; [eapply image_open_ok; [apply Hs1|exact Hin1|exact Hdec]|].
  eapply runs_to_bind; [by eapply image_convert_ok|].
  destruct (variants_run (cwd s) r sizes [favicon_file (cwd s)] s1)
    as [Hloop Hready]; [exact Hs1|apply output_files_nodup|apply sizes_paths|exact Hm|].
  eapply runs_to_bind; [exact Hloop|].
  destruct (write_output_step (cwd s) [] (foldl (variant_written r) s1 sizes)
              (image_resize (32, 32) LANCZOS r) ICO "ICO"
              favicon_path (favicon_file (cwd s))) as [Hfav _];
    [exact Hready|by apply NoDup_singleton|apply favicon_file_ne|apply favicon_file_parent
    |by apply resolve_relative|done|apply encode_resized; [done|apply (bool_decide_unpack _); vm_compute; reflexivity]|].
  destruct Hready as (_ & Hcwd & _).
  unfold generated, favicon_written. fold s1. rewrite Hcwd. exact Hfav.
Qed.

(** C1: [create_logo_variants] refines [generated]: from a well-formed
    filesystem whose output paths can be written, with an input file that
    decodes and converts to RGBA, the run completes, and it leaves exactly
    the state [generated] describes: the missing directories made, then
    each variant of [sizes] saved as PNG and announced, then the favicon
    saved as ICO and announced. *)
Theorem create_logo_variants_spec s input d r0 r :
  state_wf s -> outputs_ok (fs s) (cwd s) ->
  fs s !! resolve (cwd s) input = Some (File d) ->
  decode d = Some r0 -> convert_raster Mode_RGBA r0 = Some r ->
  runs_to (create_logo_variants input) s tt (generated r s).
Proof. apply create_logo_variants_run. Qed.
End Success.

(** ** The invariant through the script *)
Section Invariant.
Context `{ImageLib}.

Lemma save_variant_wf img e : preserves state_wf (save_variant img e).
Proof. destruct e. unfold save_variant. solve_preserves. Qed.

#[local] Hint Resolve save_variant_wf : fsdb.

Lemma create_logo_variants_wf input : preserves state_wf (create_logo_variants input).
Proof. unfold create_logo_variants. solve_preserves. Qed.

#[local] Hint Resolve create_logo_variants_wf : fsdb.

End Invariant.

(** ** What a run may change *)

Lemma touches_public : touches_path touched "public".
Proof. intros R. rewrite resolve_public. unfold touched. set_solver. Qed.

Lemma touches_output_dir : touches_path touched "public/images".
Proof. intros R. rewrite resolve_public_images. unfold touched. set_solver. Qed.

Lemma touches_variant name size : (name, size) ∈ sizes -> touches_path touched (variant_path name).
Proof.
  intros Hin R. pose proof (sizes_paths R) as Hp. rewrite Forall_forall in Hp.
  destruct (Hp _ Hin) as [Hr _]. simpl in Hr. rewrite Hr. unfold touched, output_files.
  apply elem_of_cons; right. apply elem_of_cons; right. apply elem_of_app; left.
  apply list_elem_of_fmap. eexists; split; [|exact Hin]. done.
Qed.

Lemma touches_favicon : touches_path touched favicon_path.
Proof.
  intros R. rewrite (resolve_relative R favicon_path) by reflexivity.
  unfold touched, output_files. set_solver.
Qed.

Section Frames.
Context `{ImageLib}.

Lemma makedirs_frame : guarantees (frame touched) (makedirs "public/images" true).
Proof.
  pose proof (mkdir_frame touched _ touches_public).
  pose proof (mkdir_frame touched _ touches_output_dir).
  unfold makedirs. cbn [String.length makedirs_fuel].
  change (split "public/images") with ("public", "images")%string.
  cbn -[path_exists mkdir path_isdir]. solve_guarantees.
Qed.

Lemma create_logo_variants_frame input : guarantees (frame touched) (create_logo_variants input).
Proof.
  pose proof makedirs_frame. pose proof (image_save_frame touched).
  pose proof (image_open_frame touched). pose proof (image_convert_frame touched).
  pose proof touches_favicon.
  unfold create_logo_variants. solve_guarantees.
  apply guarantees_for_each; [apply _|]. intros [name size] Hin. unfold save_variant.
  pose proof (touches_variant name size Hin). solve_guarantees.
Qed.

Lemma main_body_frame : guarantees (frame touched) main_body.
Proof. pose proof create_logo_variants_frame. unfold main_body. solve_guarantees. Qed.

Lemma run_script_state file s : snd (run_script file s) = snd (main file s).
Proof. unfold run_script. by destruct (main file s) as [[]]. Qed.
End Frames.

(** ** Runs that fail *)
Section Failures.
Context `{ImageLib}.

Lemma mkdir_all_missing_present s q n :
  fs s !! q = Some n -> fs (mkdir_all (missing_dirs (fs s) (cwd s)) s) !! q = Some n.
Proof.
  intros Hq. rewrite mkdir_all_lookup_ne; [done|].
  rewrite elem_of_missing_dirs. intros [_ ?]. congruence.
Qed.

Lemma makedirs_state_wf s :
  state_wf s -> output_dir_ready (fs s) (cwd s) ->
  state_wf (mkdir_all (missing_dirs (fs s) (cwd s)) s).
Proof.
  intros Hs Hr. eapply runs_to_wf; [apply makedirs_wf|exact Hs|by apply makedirs_output_dir].
Qed.

(** C11: When [public/images] cannot be made (a file in the way, a directory
    without write permission), the run raises an [OSError] before it has
    changed anything. *)
Theorem unusable_output_dir_touches_nothing s input :
  state_wf s -> ~ output_dir_ready (fs s) (cwd s) ->
  exists err fname, raises (create_logo_variants input) s (OSError err fname) s.
Proof.
  intros Hs Hr. destruct (makedirs_output_dir_fails s Hs Hr) as (err & fname & Hm).
  exists err, fname. by apply raises_bind_l.
Qed.

(** C9: Called on a missing input, [create_logo_variants] raises
    [FileNotFoundError], but only after it has made the output directory:
    the directory is created although no output is written. *)
Theorem missing_input_after_makedirs s input :
  state_wf s -> output_dir_ready (fs s) (cwd s) ->
  fs s !! resolve (cwd s) input = None ->
  is_dir (fs s) (removelast (resolve (cwd s) input)) = true ->
  resolve (cwd s) input <> public_dir (cwd s) -> resolve (cwd s) input <> output_dir (cwd s) ->
  raises (create_logo_variants input) s (OSError ENOENT input)
    (mkdir_all (missing_dirs (fs s) (cwd s)) s).
Proof.
  intros Hs Hr Hn Hd Hp Ho. unfold create_logo_variants.
  eapply raises_bind_r; [by apply makedirs_output_dir|].
  apply raises_bind_l. apply image_open_missing; [by apply makedirs_state_wf| |].
  - rewrite mkdir_all_cwd, mkdir_all_lookup_ne; [done|].
    rewrite elem_of_missing_dirs. naive_solver.
  - rewrite mkdir_all_cwd. apply is_dir_spec in Hd as [w Hw].
    apply is_dir_spec. exists w. by apply mkdir_all_missing_present.
Qed.

(** C10: An input that is not an image, or whose mode Pillow cannot convert
    to RGBA, makes the run raise after the output directory was made and
    before any output is written. *)
Theorem bad_image_leaves_only_dirs s input d :
  state_wf s -> output_dir_ready (fs s) (cwd s) ->
  fs s !! resolve (cwd s) input = Some (File d) ->
  (decode d = None ->
   raises (create_logo_variants input) s (UnidentifiedImageError input)
     (mkdir_all (missing_dirs (fs s) (cwd s)) s)) /\
  (forall r0, decode d = Some r0 -> convert_raster Mode_RGBA r0 = None ->
   raises (create_logo_variants input) s (ValueError "conversion not supported")
     (mkdir_all (missing_dirs (fs s) (cwd s)) s)).
Proof.
  intros Hs Hr Hin.
  assert (Hs1 := makedirs_state_wf s Hs Hr).
  assert (Hin1 : fs (mkdir_all (missing_dirs (fs s) (cwd s)) s) !!
                 resolve (cwd (mkdir_all (missing_dirs (fs s) (cwd s)) s)) input = Some (File d)).
  { rewrite mkdir_all_cwd. by apply mkdir_all_missing_present. }
  split.
  - intros Hd. unfold create_logo_variants.
    eapply raises_bind_r; [by apply makedirs_output_dir|].
    apply raises_bind_l. by eapply image_open_undecodable.
  - intros r0 Hd Hc. unfold create_logo_variants.
    eapply raises_bind_r; [by apply makedirs_output_dir|].
    eapply raises_bind_r; [by eapply image_open_ok|].
    apply raises_bind_l. by eapply image_convert_fails.
Qed.

Lemma variants_cwd r es st : cwd (foldl (variant_written r) st es) = cwd st.
Proof.
  revert st. induction es as [|[n z] es IH]; intros st; [done|]. simpl. by rewrite IH.
Qed.

Lemma variants_lookup_ne r es st q :
  q ∉ map (fun e => variant_file (cwd st) e.1) es ->
  fs (foldl (variant_written r) st es) !! q = fs st !! q.
Proof.
  revert st. induction es as [|[n z] es IH]; intros st Hq; [done|].
  simpl in Hq. apply not_elem_of_cons in Hq as [Hne Hq]. simpl.
  rewrite IH by done. simpl. by rewrite lookup_insert_ne.
Qed.

(** C12: A variant whose path is a directory stops the run with
    [IsADirectoryError]: the variants before it in [sizes] are written and
    announced and stay on disk, the ones after it and the favicon are not
    written. *)
Theorem variant_dir_stops_run s input d r0 r i name size :
  state_wf s -> output_dir_ready (fs s) (cwd s) -> images_writable (fs s) (cwd s) ->
  fs s !! resolve (cwd s) input = Some (File d) -> decode d = Some r0 ->
  convert_raster Mode_RGBA r0 = Some r -> sizes !! i = Some (name, size) ->
  Forall (fun e => is_dir (fs s) (variant_file (cwd s) e.1) = false) (take i sizes) ->
  is_dir (fs s) (variant_file (cwd s) name) = true ->
  raises (create_logo_variants input) s (OSError EISDIR (variant_path name))
    (foldl (variant_written r) (mkdir_all (missing_dirs (fs s) (cwd s)) s) (take i sizes)).
Proof.
  intros Hs Hr Himg Hin Hdec Hconv Hi Hpre Hdir.
  set (s1 := mkdir_all (missing_dirs (fs s) (cwd s)) s).
  set (vf := fun e : string * nat => variant_file (cwd s) e.1).
  assert (Hnd : NoDup (map vf sizes)).
  { pose proof (output_files_nodup (cwd s)) as Hn. by apply NoDup_app in Hn as [? _]. }
  assert (Hnotin : variant_file (cwd s) name ∉ map vf (take i sizes)).
  { rewrite <- firstn_map. apply NoDup_lookup_not_in_take; [done|].
    by apply (lookup_map_Some vf) in Hi. }
  assert (Hready : outputs_ready (cwd s) (map vf (take i sizes)) s1).
  { apply ready_after_makedirs_for; [done..|].
    pose proof (output_files_ne_dirs (cwd s)) as Hne. apply Forall_app in Hne as [Hne _].
    apply Forall_forall. intros o Ho.
    apply list_elem_of_In, in_map_iff in Ho as [e [<- He]]. apply list_elem_of_In in He.
    rewrite Forall_forall in Hpre. split; [by apply Hpre|].
    rewrite Forall_forall in Hne. destruct (Hne (vf e)) as [? ?]; [|done].
    apply list_elem_of_In, in_map. apply list_elem_of_In.
    rewrite <- (take_drop i sizes). apply elem_of_app. by left. }
  destruct (variants_run (cwd s) r (take i sizes) [] s1) as [Hrun _];
    [by rewrite app_nil_r|rewrite app_nil_r, <- firstn_map; by apply NoDup_take_of
    |apply Forall_take, sizes_paths|by eapply convert_mode|].
  assert (Hcwd_i : cwd (foldl (variant_written r) s1 (take i sizes)) = cwd s).
  { rewrite variants_cwd. apply mkdir_all_cwd. }
  assert (Hres : resolve (cwd s) (variant_path name) = variant_file (cwd s) name).
  { pose proof (Forall_lookup_1 _ _ _ _ (sizes_paths (cwd s)) Hi) as [? _]. done. }
  unfold create_logo_variants.
  eapply raises_bind_r; [by apply makedirs_output_dir|].
  eapply raises_bind_r;
    [eapply image_open_ok; [by apply makedirs_state_wf
                           |rewrite mkdir_all_cwd; by apply mkdir_all_missing_present|exact Hdec]|].
  eapply raises_bind_r; [by eapply image_convert_ok|].
  apply raises_bind_l. unfold raises.
  rewrite <- (take_drop i sizes) at 1. rewrite for_each_app.
  fold (raises (for_each (take i sizes) (save_variant r) ;; for_each (drop i sizes) (save_variant r)) s1
          (OSError EISDIR (variant_path name)) (foldl (variant_written r) s1 (take i sizes))).
  eapply raises_bind_r; [exact Hrun|].
  rewrite (drop_S _ _ _ Hi). apply raises_bind_l. apply raises_bind_l.
  destruct Hready as [Hs1 _].
  apply (image_save_to_dir _ _ _ PNG); [|discriminate|done|].
  - eapply runs_to_wf; [|exact Hs1|exact Hrun]. apply preserves_for_each. apply save_variant_wf.
  - rewrite Hcwd_i, Hres. unfold is_dir in *. rewrite variants_lookup_ne.
    + unfold s1. rewrite mkdir_all_lookup_ne; [done|].
      rewrite elem_of_missing_dirs. intros [_ Hn]. by rewrite Hn in Hdir.
    + unfold s1. by rewrite mkdir_all_cwd.
Qed.
End Failures.

(** ** The final state, entry by entry *)
Section Generated.
Context `{ImageLib}.

(** The files a completed run writes, with their contents, in order. *)
Definition written_files (r : raster) (R : list string) : list (list string * list byte) :=
  map (fun e => (variant_file R e.1, encoded PNG (image_resize (e.2, e.2) LANCZOS r))) sizes ++
  [(favicon_file R, encoded ICO (image_resize (32, 32) LANCZOS r))].

(** The lines it prints. *)
Definition created_lines : list string :=
  map (fun e => "Created " +:+ variant_path e.1) sizes ++ ["Created " +:+ favicon_path].

(** What it does after making the directories: for each output, open it,
    write it, print its line. *)
Definition write_events (r : raster) (R : list string) : list event :=
  List.concat (zip_with (fun w line => [EvOpenWrite w.1; EvWrite w.1 w.2; EvPrint line])
            (written_files r R) created_lines).

Lemma written_files_keys r R : (written_files r R).*1 = output_files R.
Proof. reflexivity. Qed.

Lemma mkdir_all_log ps s : log (mkdir_all ps s) = log s ++ map EvMkdir ps.
Proof.
  revert s. induction ps as [|p ps IH]; intros s; simpl; [by rewrite app_nil_r|].
  rewrite IH. simpl. by rewrite <- app_assoc.
Qed.

Lemma omap_print_mkdirs ps :
  omap (fun ev => match ev with EvPrint l => Some l | _ => None end) (map EvMkdir ps) = [].
Proof. by induction ps. Qed.

Lemma stdout_mkdir_all ps s : stdout (mkdir_all ps s) = stdout s.
Proof. unfold stdout. by rewrite mkdir_all_log, omap_app, omap_print_mkdirs, app_nil_r. Qed.

Lemma generated_cwd r s : cwd (generated r s) = cwd s.
Proof. unfold generated. cbn -[mkdir_all]. apply mkdir_all_cwd. Qed.

Lemma generated_fs r s :
  fs (generated r s) =
  write_all (written_files r (cwd s)) (fs (mkdir_all (missing_dirs (fs s) (cwd s)) s)).
Proof. unfold generated. cbn -[mkdir_all]. by rewrite mkdir_all_cwd. Qed.

Lemma generated_log r s :
  log (generated r s) =
  log s ++ map EvMkdir (missing_dirs (fs s) (cwd s)) ++ write_events r (cwd s).
Proof. unfold generated. cbn -[mkdir_all]. rewrite mkdir_all_cwd, mkdir_all_log. by rewrite <- !app_assoc. Qed.

Lemma stdout_app_log s evs :
  omap (fun ev => match ev with EvPrint l => Some l | _ => None end) (log s ++ evs) =
  stdout s ++ omap (fun ev => match ev with EvPrint l => Some l | _ => None end) evs.
Proof. apply omap_app. Qed.

Lemma encoded_decodes fmt r size :
  raster_mode r = Mode_RGBA -> reads_back fmt (size, size) ->
  exists r', decode (encoded fmt (image_resize (size, size) LANCZOS r)) = Some r' /\
    raster_size r' = (size, size) /\ raster_mode r' = Mode_RGBA.
Proof.
  intros Hm Hf.
  destruct (encode_decode fmt (image_resize (size, size) LANCZOS r)) as (dd & r' & He & Hd & Hs & Hm').
  - unfold image_resize. by rewrite resize_mode.
  - unfold image_resize. by rewrite resize_size.
  - exists r'. unfold encoded. rewrite He, Hd. unfold image_resize in Hs.
    by rewrite Hs, resize_size.
Qed.
End Generated.

(** What a stored file begins with tells its format: an icon never starts
    with the PNG signature. *)
Lemma ico_not_png (dd : list byte) :
  format_magic ICO `prefix_of` dd -> ~ format_magic PNG `prefix_of` dd.
Proof. intros [k1 ->] [k2 Hk]. discriminate Hk. Qed.

(** The writes and the printed lines of a log, in order. *)
Definition io_trace (evs : list event) : list (list string + string) :=
  omap (fun ev => match ev with
                  | EvWrite p _ => Some (inl p)
                  | EvPrint l => Some (inr l)
                  | _ => None
                  end) evs.

Lemma io_trace_mkdirs ps : io_trace (map EvMkdir ps) = [].
Proof. induction ps; simpl; auto. Qed.

Lemma generated_stdout `{ImageLib} r st :
  stdout (generated r st) = stdout st ++ created_lines.
Proof.
  unfold stdout. rewrite generated_log, !omap_app.
  by rewrite omap_print_mkdirs.
Qed.


(** ** Properties of a completed run

    The hypotheses under which [create_logo_variants_run] shows the run
    completes, shared by the theorems of this section. *)
Section CompletedRun.
Context `{ImageLib} (s : state) (input : string) (d : list byte) (r0 r : raster).
Hypothesis Hwf : state_wf s.
Hypothesis Hok : outputs_ok (fs s) (cwd s).
Hypothesis Hin : fs s !! resolve (cwd s) input = Some (File d).
Hypothesis Hdec : decode d = Some r0.
Hypothesis Hconv : convert_raster Mode_RGBA r0 = Some r.

Lemma completed_run : runs_to (create_logo_variants input) s tt (generated r s).
Proof. by eapply create_logo_variants_run. Qed.

Lemma converted_rgba : raster_mode r = Mode_RGBA.
Proof. by eapply convert_mode. Qed.

Lemma generated_lookup_output fmt size o :
  (o, encoded fmt (image_resize (size, size) LANCZOS r)) ∈ written_files r (cwd s) ->
  fs (generated r s) !! o = Some (File (encoded fmt (image_resize (size, size) LANCZOS r))).
Proof.
  intros Hin'. rewrite generated_fs. apply write_all_lookup_in; [|done].
  rewrite written_files_keys. apply output_files_nodup.
Qed.

Lemma output_target_ok fmt size o :
  (o, encoded fmt (image_resize (size, size) LANCZOS r)) ∈ written_files r (cwd s) ->
  reads_back fmt (size, size) ->
  exists dd r', fs (generated r s) !! o = Some (File dd) /\ decode dd = Some r' /\
    raster_size r' = (size, size) /\ raster_mode r' = Mode_RGBA.
Proof.
  intros Hw Hf. destruct (encoded_decodes fmt r size converted_rgba Hf) as (r' & Hd & Hsz & Hm).
  exists (encoded fmt (image_resize (size, size) LANCZOS r)), r'.
  by rewrite (generated_lookup_output fmt size o Hw).
Qed.

(** C5: Each output holds an image of exactly its target size, with an alpha
    channel, whatever the size of the input: the table of the interface,
    [logo-sm.png] 64x64, [logo-md.png] 128x128, [logo-lg.png] 256x256 and
    [favicon.ico] 32x32. *)
Theorem outputs_decode_at_size :
  exists s', runs_to (create_logo_variants input) s tt s' /\
    Forall (fun t => exists dd r', fs s' !! t.1 = Some (File dd) /\ decode dd = Some r' /\
                       raster_size r' = (t.2, t.2) /\ raster_mode r' = Mode_RGBA)
      [(variant_file (cwd s) "sm", 64); (variant_file (cwd s) "md", 128);
       (variant_file (cwd s) "lg", 256); (favicon_file (cwd s), 32)].
Proof.
  exists (generated r s). split; [apply completed_run|].
  repeat apply Forall_cons_2; try apply Forall_nil_2; simpl.
  1-3: apply (output_target_ok PNG); [simpl; set_solver|apply (bool_decide_unpack _); vm_compute; reflexivity].
  apply (output_target_ok ICO); [simpl; set_solver|apply (bool_decide_unpack _); vm_compute; reflexivity].
Qed.

(** C7: The writes and the printed lines of the run come in this order: each
    output is written before its line is printed, and the outputs follow
    the order of [sizes], then the favicon. *)
Theorem run_write_print_order :
  exists s', runs_to (create_logo_variants input) s tt s' /\
    io_trace (log s') = io_trace (log s) ++
      [inl (variant_file (cwd s) "sm"); inr "Created public/images/logo-sm.png";
       inl (variant_file (cwd s) "md"); inr "Created public/images/logo-md.png";
       inl (variant_file (cwd s) "lg"); inr "Created public/images/logo-lg.png";
       inl (favicon_file (cwd s)); inr "Created public/images/favicon.ico"].
Proof.
  exists (generated r s). split; [apply completed_run|].
  rewrite generated_log. unfold io_trace. rewrite !omap_app.
  fold (io_trace (map EvMkdir (missing_dirs (fs s) (cwd s)))).
  by rewrite io_trace_mkdirs.
Qed.

(** C8: Nothing else changes: every path that is neither an output nor one of
    the two directories keeps its entry, the input file included, and
    [public/images] is a directory. *)
Theorem run_frame :
  exists s', runs_to (create_logo_variants input) s tt s' /\
    (forall q, q ∉ output_files (cwd s) -> q <> public_dir (cwd s) -> q <> output_dir (cwd s) ->
       fs s' !! q = fs s !! q) /\
    fs s' !! output_dir (cwd s) = Some (Dir true).
Proof.
  exists (generated r s). split; [apply completed_run|].
  rewrite generated_fs. split.
  - intros q Hq Hp Ho. rewrite write_all_lookup_ne by (by rewrite written_files_keys).
    rewrite mkdir_all_lookup_ne; [done|]. rewrite elem_of_missing_dirs. naive_solver.
  - rewrite write_all_lookup_ne.
    + by destruct (ready_after_makedirs s Hwf Hok) as (_ & _ & Hdir & _).
    + rewrite written_files_keys. intros Hin'.
      pose proof (output_files_ne_dirs (cwd s)) as Hne. rewrite Forall_forall in Hne.
      by destruct (Hne _ Hin').
Qed.

(** C6: The favicon is an icon file (the ICO container, written by the save
    handler the code selects with 'ICO'), not a PNG file with an [.ico]
    name. *)
Theorem favicon_is_ico :
  exists s', runs_to (create_logo_variants input) s tt s' /\
    exists dd, fs s' !! favicon_file (cwd s) = Some (File dd) /\
      format_magic ICO `prefix_of` dd /\ ~ format_magic PNG `prefix_of` dd.
Proof.
  exists (generated r s). split; [apply completed_run|].
  exists (encoded ICO (image_resize (32, 32) LANCZOS r)).
  assert (Hmagic : format_magic ICO `prefix_of` encoded ICO (image_resize (32, 32) LANCZOS r)).
  { apply (encode_magic ICO (image_resize (32, 32) LANCZOS r)).
    apply encode_resized; [apply converted_rgba|apply (bool_decide_unpack _); vm_compute; reflexivity]. }
  split; [apply generated_lookup_output; simpl; set_solver|].
  split; [done|by apply ico_not_png].
Qed.

Lemma public_dir_after_makedirs :
  exists w, fs (mkdir_all (missing_dirs (fs s) (cwd s)) s) !! public_dir (cwd s) = Some (Dir w).
Proof.
  destruct Hok as [Hready _]. unfold output_dir_ready in Hready.
  destruct (fs s !! public_dir (cwd s)) as [[wp|]|] eqn:HP; [|done|].
  - exists wp. rewrite mkdir_all_lookup_ne; [done|].
    rewrite elem_of_missing_dirs. intros [_ ?]. congruence.
  - exists true. apply mkdir_all_lookup_in, elem_of_missing_dirs. auto.
Qed.

(** C14: Running the script a second time on its own output rewrites the same
    files with the same bytes: the filesystem after two runs is the one
    after one, as long as the input is not one of the outputs. *)
Theorem run_twice_same_files :
  resolve (cwd s) input ∉ output_files (cwd s) ->
  exists s1 s2, runs_to (create_logo_variants input) s tt s1 /\
    runs_to (create_logo_variants input) s1 tt s2 /\ fs s2 = fs s1.
Proof.
  intros Hnot.
  set (m := mkdir_all (missing_dirs (fs s) (cwd s)) s).
  set (s1 := generated r s).
  assert (Hfs1 : fs s1 = write_all (written_files r (cwd s)) (fs m)) by apply generated_fs.
  assert (Hcwd1 : cwd s1 = cwd s) by apply generated_cwd.
  assert (Hkeys := written_files_keys r (cwd s)).
  assert (Hne := output_files_ne_dirs (cwd s)). rewrite Forall_forall in Hne.
  destruct (ready_after_makedirs s Hwf Hok) as (_ & _ & Hdir & _).
  destruct public_dir_after_makedirs as [wp Hpub].
  assert (HI1 : fs s1 !! output_dir (cwd s) = Some (Dir true)).
  { rewrite Hfs1, write_all_lookup_ne; [done|]. rewrite Hkeys. intros Ho. by destruct (Hne _ Ho). }
  assert (HP1 : fs s1 !! public_dir (cwd s) = Some (Dir wp)).
  { rewrite Hfs1, write_all_lookup_ne; [done|]. rewrite Hkeys. intros Ho. by destruct (Hne _ Ho). }
  assert (Hok1 : outputs_ok (fs s1) (cwd s1)).
  { rewrite Hcwd1. split; [unfold output_dir_ready; by rewrite HP1, HI1|].
    split; [unfold images_writable; by rewrite HI1|].
    apply Forall_forall. intros o Ho. rewrite <- Hkeys in Ho.
    apply list_elem_of_fmap in Ho as [[o' dd] [-> Hw]].
    unfold is_dir. rewrite Hfs1, (write_all_lookup_in _ _ o' dd); [done| |done].
    rewrite Hkeys. apply output_files_nodup. }
  assert (Hin1 : fs s1 !! resolve (cwd s1) input = Some (File d)).
  { rewrite Hcwd1, Hfs1, write_all_lookup_ne by (by rewrite Hkeys).
    unfold m. rewrite mkdir_all_lookup_ne; [done|].
    rewrite elem_of_missing_dirs. intros [_ ?]. congruence. }
  assert (Hwf1 : state_wf s1).
  { eapply runs_to_wf; [apply create_logo_variants_wf|exact Hwf|apply completed_run]. }
  exists s1, (generated r s1). split; [apply completed_run|]. split.
  - by eapply create_logo_variants_run.
  - rewrite generated_fs, Hcwd1.
    assert (Hnone : missing_dirs (fs s1) (cwd s) = []).
    { unfold missing_dirs. rewrite filter_cons_False by (by rewrite HP1).
      rewrite filter_cons_False by (by rewrite HI1). reflexivity. }
    rewrite Hnone. change (mkdir_all [] s1) with s1. rewrite Hfs1. apply write_all_idem.
    rewrite written_files_keys. apply output_files_nodup.
Qed.
End CompletedRun.

(** ** The entry point *)

(** The directory [main] moves to: [dirname(dirname(abspath(__file__)))]
    resolved against the working directory it starts in. *)
Definition project_root (s : state) (file : string) : list string :=
  resolve (cwd s) (dirname (dirname (abspath (cwd s) file))).

(** The state after [os.chdir(project_root)]. *)
Definition at_project_root (s : state) (file : string) : state :=
  emit (EvChdir (project_root s file)) (mkState (fs s) (project_root s file) (log s)).

Section Main.
Context `{ImageLib} (s : state) (file : string).
Hypothesis Hwf : state_wf s.
Hypothesis Hroot : is_dir (fs s) (project_root s file) = true.

(** [dirname(script_dir)] is an absolute path, so not the empty name. *)
Lemma project_root_name_nonempty : dirname (dirname (abspath (cwd s) file)) <> ""%string.
Proof. apply isabs_nonempty, isabs_dirname, isabs_dirname, isabs_abspath. Qed.

Lemma chdir_project_root :
  runs_to (chdir (dirname (dirname (abspath (cwd s) file)))) s tt (at_project_root s file).
Proof. apply chdir_ok; [exact Hwf|apply project_root_name_nonempty|exact Hroot]. Qed.

Lemma main_at_root : main file s = main_body (at_project_root s file).
Proof.
  unfold main. rewrite (bind_normal _ _ _ (dirname (abspath (cwd s) file)) s); [|reflexivity].
  by rewrite (bind_normal _ _ _ tt (at_project_root s file)); [|apply chdir_project_root].
Qed.

Lemma at_project_root_wf : state_wf (at_project_root s file).
Proof. eapply runs_to_wf; [apply chdir_wf|exact Hwf|apply chdir_project_root]. Qed.

Lemma logo_path : resolve (project_root s file) "logo.png" = project_root s file ++ ["logo.png"].
Proof. by apply resolve_relative. Qed.

(** C3: Without [logo.png] in the project root, the script prints its two
    error lines and exits with status 0, and the filesystem is untouched:
    no directory is made. *)
Theorem main_missing_logo :
  fs s !! (project_root s file ++ ["logo.png"]) = None ->
  exists s', run_script file s = (0, s') /\ fs s' = fs s /\ cwd s' = project_root s file /\
    stdout s' = stdout s ++ ["Error: Could not find logo file at logo.png";
                             "Please place the logo.png file in the project root directory."].
Proof.
  intros Hn.
  assert (Hex : runs_to (path_exists "logo.png") (at_project_root s file) false (at_project_root s file)).
  { pose proof Hroot as Hr. apply is_dir_spec in Hr as [w Hw].
    unfold runs_to, path_exists, gets.
    by rewrite (stat_run_absent "logo.png" (project_root s file ++ ["logo.png"]) w
                  (at_project_root s file) at_project_root_wf logo_path Hn)
      by (simpl; by rewrite removelast_snoc). }
  unfold run_script. rewrite main_at_root. unfold main_body.
  rewrite (bind_normal _ _ _ _ _ Hex). simpl.
  eexists. split; [reflexivity|]. split; [reflexivity|]. split; [reflexivity|].
  rewrite !stdout_print. unfold at_project_root. rewrite stdout_chdir.
  by rewrite <- app_assoc.
Qed.

(** C2: With a [logo.png] that decodes, and output paths that can be written,
    the script exits with status 0 after printing the four [Created] lines
    and the success line, and the filesystem is the one
    [create_logo_variants] leaves from the project root. *)
Theorem main_success d r0 r :
  outputs_ok (fs s) (project_root s file) ->
  fs s !! (project_root s file ++ ["logo.png"]) = Some (File d) ->
  decode d = Some r0 -> convert_raster Mode_RGBA r0 = Some r ->
  exists s', run_script file s = (0, s') /\ fs s' = fs (generated r (at_project_root s file)) /\
    stdout s' = stdout s ++
      ["Created public/images/logo-sm.png"; "Created public/images/logo-md.png";
       "Created public/images/logo-lg.png"; "Created public/images/favicon.ico";
       "Logo processing completed successfully!"].
Proof.
  intros Hok Hin Hdec Hconv.
  assert (Hin' : fs (at_project_root s file) !! resolve (cwd (at_project_root s file)) "logo.png"
                 = Some (File d)) by (simpl; by rewrite logo_path).
  assert (Hex : runs_to (path_exists "logo.png") (at_project_root s file) true (at_project_root s file)).
  { unfold runs_to, path_exists, gets.
    by rewrite (stat_run_present "logo.png" _ _ _ at_project_root_wf ltac:(discriminate) eq_refl Hin'). }
  unfold run_script. rewrite main_at_root. unfold main_body.
  rewrite (bind_normal _ _ _ _ _ Hex). simpl.
  rewrite (bind_normal _ _ _ _ _ (create_logo_variants_run _ _ _ _ _ at_project_root_wf Hok Hin' Hdec Hconv)).
  eexists. split; [reflexivity|]. split; [reflexivity|].
  rewrite stdout_print, generated_stdout. unfold at_project_root. rewrite stdout_chdir.
  by rewrite <- app_assoc.
Qed.

(** C4: A [logo.png] that is not an image makes the script exit with status 1
    (the [UnidentifiedImageError] escapes [main]); [public/images] has been
    made by then, no output is written and nothing is printed. *)
Theorem main_bad_logo d :
  output_dir_ready (fs s) (project_root s file) ->
  fs s !! (project_root s file ++ ["logo.png"]) = Some (File d) -> decode d = None ->
  exists s', run_script file s = (1, s') /\
    fs s' = fs (mkdir_all (missing_dirs (fs s) (project_root s file)) (at_project_root s file)) /\
    stdout s' = stdout s.
Proof.
  intros Hr Hin Hdec.
  set (st := at_project_root s file).
  assert (Hin' : fs st !! resolve (cwd st) "logo.png" = Some (File d)) by (simpl; by rewrite logo_path).
  assert (Hst : state_wf st) by apply at_project_root_wf.
  assert (Hex : runs_to (path_exists "logo.png") st true st).
  { unfold runs_to, path_exists, gets. by rewrite (stat_run_present "logo.png" _ _ _ Hst ltac:(discriminate) eq_refl Hin'). }
  assert (Hraise : raises (create_logo_variants "logo.png") st (UnidentifiedImageError "logo.png")
                     (mkdir_all (missing_dirs (fs st) (cwd st)) st)).
  { unfold create_logo_variants. eapply raises_bind_r; [by apply makedirs_output_dir|].
    apply raises_bind_l. eapply image_open_undecodable; [by apply makedirs_state_wf| |exact Hdec].
    rewrite mkdir_all_cwd. by apply mkdir_all_missing_present. }
  unfold run_script. rewrite main_at_root. unfold main_body.
  rewrite (bind_normal _ _ _ _ _ Hex). simpl.
  rewrite (bind_raised _ _ _ _ _ Hraise).
  eexists. split; [reflexivity|]. split; [reflexivity|].
  rewrite stdout_mkdir_all. unfold st, at_project_root. by rewrite stdout_chdir.
Qed.
End Main.

(** Where the script moves, for a script path made of names: absolute
    ([python /proj/scripts/process_logo.py]) or relative to the working
    directory ([python scripts/process_logo.py]). *)
Lemma project_root_of_script s R d f :
  Forall (fun c => name_ok c = true) (R ++ [d; f]) ->
  project_root s (String sep (join_sep (R ++ [d; f]))) = R.
Proof.
  intros Hall. unfold project_root. rewrite abspath_abs_names by (by destruct R).
  replace (R ++ [d; f])%list with ((R ++ [d]) ++ [f])%list in * by (by rewrite <- app_assoc).
  rewrite dirname_names by done.
  apply Forall_app in Hall as [Hall _]. rewrite dirname_names by done.
  apply resolve_abs_names. by apply Forall_app in Hall as [? _].
Qed.

Lemma project_root_of_rel_script s Rr d f :
  Forall (fun c => name_ok c = true) (cwd s ++ Rr ++ [d; f]) ->
  project_root s (join_sep (Rr ++ [d; f])) = (cwd s ++ Rr)%list.
Proof.
  intros Hall. unfold project_root. rewrite abspath_rel_names by (by destruct Rr).
  rewrite app_assoc in *. rewrite <- abspath_abs_names with (cwd := cwd s) by (by destruct (cwd s ++ Rr)).
  fold (project_root s (String sep (join_sep ((cwd s ++ Rr) ++ [d; f])))).
  by apply project_root_of_script.
Qed.

(** C15: [main] moves to [dirname(dirname(abspath(__file__)))]: for a
    script at [R/d/f], given by its absolute path or by its path from the
    working directory, [main] changes the working directory to [R] and
    then runs the body of the block there. *)
Theorem main_enters_project_root `{ImageLib} s R d f n :
  state_wf s -> Forall (fun c => name_ok c = true) (R ++ [d; f]) -> fs s !! (R ++ [d; f]) = Some n ->
  main (String sep (join_sep (R ++ [d; f]))) s = main_body (emit (EvChdir R) (mkState (fs s) R (log s))) /\
  (forall Rr, R = (cwd s ++ Rr)%list ->
     main (join_sep (Rr ++ [d; f])) s = main_body (emit (EvChdir R) (mkState (fs s) R (log s)))).
Proof.
  intros Hwf Hall Hn.
  assert (Hdir : is_dir (fs s) R = true).
  { apply is_dir_spec. destruct Hwf as [Hfs _]. by eapply wf_ancestor. }
  split.
  - rewrite main_at_root; [|done|by rewrite project_root_of_script].
    unfold at_project_root. by rewrite project_root_of_script.
  - intros Rr ->. rewrite <- app_assoc in Hall.
    rewrite main_at_root; [|done|by rewrite project_root_of_rel_script].
    unfold at_project_root. by rewrite project_root_of_rel_script.
Qed.

(** C13: Whatever the outcome (completed, or stopped by any exception),
    [create_logo_variants] keeps the working directory and changes no
    entry but [public], [public/images] and the four outputs; and a run
    of the whole script changes no entry but those of the project root.
    In particular the input and the script itself are never modified or
    removed, and a failed save leaves nothing else behind. *)
Theorem run_touches_only_outputs `{ImageLib} input file s :
  frame touched s (snd (create_logo_variants input s)) /\
  forall q, q ∉ touched (project_root s file) -> fs (snd (run_script file s)) !! q = fs s !! q.
Proof.
  split; [apply create_logo_variants_frame|]. intros q Hq.
  rewrite run_script_state. unfold main. cbn [bind gets].
  destruct (chdir (dirname (dirname (abspath (cwd s) file))) s) as [[u|e] s1] eqn:Hc; cbn [snd].
  - destruct (chdir_normal _ _ _ _ Hc) as [Hfs Hcwd].
    rewrite (bind_normal _ _ _ _ _ Hc). destruct (main_body_frame s1) as [_ Hf].
    rewrite Hf, Hfs; [done|]. by rewrite Hcwd.
  - rewrite (bind_raised _ _ _ _ _ Hc). by rewrite (chdir_raised _ _ _ _ Hc).
Qed.

End ProcessLogo.
