(* ===== verification/Examples.v ===== *)
(** * Examples: the theorems at a concrete project

    A project directory [/proj] holding [scripts/process_logo.py] and a
    300x150 RGB [logo.png], with Pillow played by [Pillow.RefImage].  Each
    lemma here applies a theorem of [ProcessLogo] at this project,
    discharging its hypotheses by computation. *)

From stdpp Require Import base gmap list strings.
From Stdlib Require Import String Init.Byte.
From S2P Require Import Prelude Paths Os Pillow ProcessLogo.

Module Examples.
Import Os PosixPath Pillow Pillow.RefImage ProcessLogo.

Definition logo_raster : @raster ref_image_lib := RefRaster 300 150 Mode_RGB.
Definition logo_rgba : @raster ref_image_lib := RefRaster 300 150 Mode_RGBA.

Definition logo_bytes : list byte := encoded PNG logo_raster.

(** The project without its logo. *)
Definition bare_project : fsys :=
  <[["proj"; "scripts"; "process_logo.py"] := File []]>
  (<[["proj"; "scripts"] := Dir true]>
  (<[["proj"] := Dir true]>
  (<[[] := Dir true]> ∅))).

Definition project : fsys := <[["proj"; "logo.png"] := File logo_bytes]> bare_project.

(** A [logo.png] that is no image. *)
Definition bad_logo_project : fsys := <[["proj"; "logo.png"] := File []]> bare_project.

(** A file [public] where the output directory should go. *)
Definition blocked_project : fsys := <[["proj"; "public"] := File []]> project.

(** [public/images] already there, with a directory named [logo-md.png]. *)
Definition md_dir_project : fsys :=
  <[["proj"; "public"; "images"; "logo-md.png"] := Dir true]>
  (<[["proj"; "public"; "images"] := Dir true]>
  (<[["proj"; "public"] := Dir true]> project)).

(** The interpreter started in [/proj]. *)
Definition at_root : state := mkState project ["proj"] [].

(** The interpreter started in [/], running [/proj/scripts/process_logo.py]. *)
Definition script_file : string := "/proj/scripts/process_logo.py".
Definition from_top (f : fsys) : state := mkState f [] [].

(** The hypotheses of the theorems hold at these states by computation. *)
Ltac by_computation :=
  first [ apply state_wfb_sound; vm_compute; reflexivity
        | apply (bool_decide_unpack _); vm_compute; reflexivity
        | vm_compute; reflexivity
        | vm_compute; discriminate
        | vm_compute; tauto ].

Lemma create_logo_variants_spec_witness :
  runs_to (create_logo_variants "logo.png") at_root tt (generated logo_rgba at_root).
Proof.
  apply (create_logo_variants_spec at_root "logo.png" logo_bytes logo_raster).
  - apply state_wfb_sound. vm_compute. reflexivity.
  - apply (bool_decide_unpack _). vm_compute. reflexivity.
  - reflexivity.
  - reflexivity.
  - reflexivity.
Defined.

Lemma outputs_decode_at_size_witness :
  exists s', runs_to (create_logo_variants "logo.png") at_root tt s' /\
    Forall (fun t => exists dd r', fs s' !! t.1 = Some (File dd) /\ decode dd = Some r' /\
                       raster_size r' = (t.2, t.2) /\ raster_mode r' = Mode_RGBA)
      [(["proj"; "public"; "images"; "logo-sm.png"], 64); (["proj"; "public"; "images"; "logo-md.png"], 128);
       (["proj"; "public"; "images"; "logo-lg.png"], 256); (["proj"; "public"; "images"; "favicon.ico"], 32)].
Proof.
  apply (outputs_decode_at_size at_root "logo.png" logo_bytes logo_raster logo_rgba);
    by_computation.
Defined.

Lemma run_write_print_order_witness :
  exists s', runs_to (create_logo_variants "logo.png") at_root tt s' /\
    io_trace (log s') =
      [inl ["proj"; "public"; "images"; "logo-sm.png"]; inr "Created public/images/logo-sm.png";
       inl ["proj"; "public"; "images"; "logo-md.png"]; inr "Created public/images/logo-md.png";
       inl ["proj"; "public"; "images"; "logo-lg.png"]; inr "Created public/images/logo-lg.png";
       inl ["proj"; "public"; "images"; "favicon.ico"]; inr "Created public/images/favicon.ico"].
Proof.
  apply (run_write_print_order at_root "logo.png" logo_bytes logo_raster logo_rgba);
    by_computation.
Defined.

Lemma run_frame_witness :
  exists s', runs_to (create_logo_variants "logo.png") at_root tt s' /\
    (forall q, q ∉ output_files ["proj"] -> q <> ["proj"; "public"] ->
       q <> ["proj"; "public"; "images"] -> fs s' !! q = project !! q) /\
    fs s' !! ["proj"; "public"; "images"] = Some (Dir true).
Proof.
  apply (run_frame at_root "logo.png" logo_bytes logo_raster logo_rgba); by_computation.
Defined.

Lemma favicon_is_ico_witness :
  exists s', runs_to (create_logo_variants "logo.png") at_root tt s' /\
    exists dd, fs s' !! ["proj"; "public"; "images"; "favicon.ico"] = Some (File dd) /\
      format_magic ICO `prefix_of` dd /\ ~ format_magic PNG `prefix_of` dd.
Proof.
  apply (favicon_is_ico at_root "logo.png" logo_bytes logo_raster logo_rgba); by_computation.
Defined.

Lemma run_twice_same_files_witness :
  exists s1 s2, runs_to (create_logo_variants "logo.png") at_root tt s1 /\
    runs_to (create_logo_variants "logo.png") s1 tt s2 /\ fs s2 = fs s1.
Proof.
  apply (run_twice_same_files at_root "logo.png" logo_bytes logo_raster logo_rgba);
    by_computation.
Defined.

Lemma unusable_output_dir_touches_nothing_witness :
  exists err fname, raises (create_logo_variants "logo.png") (mkState blocked_project ["proj"] [])
                      (OSError err fname) (mkState blocked_project ["proj"] []).
Proof.
  apply (unusable_output_dir_touches_nothing (mkState blocked_project ["proj"] []) "logo.png");
    by_computation.
Defined.

Lemma missing_input_after_makedirs_witness :
  raises (create_logo_variants "logo.png") (mkState bare_project ["proj"] []) (OSError ENOENT "logo.png")
    (mkdir_all (missing_dirs bare_project ["proj"]) (mkState bare_project ["proj"] [])).
Proof.
  apply (missing_input_after_makedirs (mkState bare_project ["proj"] []) "logo.png"); by_computation.
Defined.

Lemma bad_image_leaves_only_dirs_witness :
  raises (create_logo_variants "logo.png") (mkState bad_logo_project ["proj"] [])
    (UnidentifiedImageError "logo.png")
    (mkdir_all (missing_dirs bad_logo_project ["proj"]) (mkState bad_logo_project ["proj"] [])).
Proof.
  pose proof (bad_image_leaves_only_dirs (mkState bad_logo_project ["proj"] []) "logo.png" []
                ltac:(by_computation) ltac:(by_computation) ltac:(by_computation)) as [Hbad _].
  apply Hbad. by_computation.
Defined.

Lemma variant_dir_stops_run_witness :
  raises (create_logo_variants "logo.png") (mkState md_dir_project ["proj"] [])
    (OSError EISDIR "public/images/logo-md.png")
    (foldl (variant_written logo_rgba)
       (mkdir_all (missing_dirs md_dir_project ["proj"]) (mkState md_dir_project ["proj"] []))
       [("sm", 64)]).
Proof.
  apply (variant_dir_stops_run (mkState md_dir_project ["proj"] []) "logo.png" logo_bytes
           logo_raster logo_rgba 1 "md" 128); by_computation.
Defined.

Lemma main_missing_logo_witness :
  exists s', run_script script_file (from_top bare_project) = (0, s') /\ fs s' = bare_project /\
    cwd s' = ["proj"] /\
    stdout s' = ["Error: Could not find logo file at logo.png";
                 "Please place the logo.png file in the project root directory."].
Proof. apply (main_missing_logo (from_top bare_project) script_file); by_computation. Defined.

Lemma main_success_witness :
  exists s', run_script script_file (from_top project) = (0, s') /\
    fs s' = fs (generated logo_rgba (at_project_root (from_top project) script_file)) /\
    stdout s' =
      ["Created public/images/logo-sm.png"; "Created public/images/logo-md.png";
       "Created public/images/logo-lg.png"; "Created public/images/favicon.ico";
       "Logo processing completed successfully!"].
Proof.
  apply (main_success (from_top project) script_file ltac:(by_computation) ltac:(by_computation)
           logo_bytes logo_raster logo_rgba); by_computation.
Defined.

Lemma main_bad_logo_witness :
  exists s', run_script script_file (from_top bad_logo_project) = (1, s') /\
    fs s' = fs (mkdir_all (missing_dirs bad_logo_project ["proj"])
                  (at_project_root (from_top bad_logo_project) script_file)) /\
    stdout s' = [].
Proof. 
  apply (main_bad_logo (from_top bad_logo_project) script_file ltac:(by_computation)
           ltac:(by_computation) []); by_computation.
 Defined.

Lemma main_enters_project_root_witness :
  main (String sep (join_sep (["proj"] ++ ["scripts"; "process_logo.py"]))) (from_top project) =
    main_body (emit (EvChdir ["proj"]) (mkState project ["proj"] [])) /\
  (forall Rr, ["proj"] = ([] ++ Rr)%list ->
     main (join_sep (Rr ++ ["scripts"; "process_logo.py"])) (from_top project) =
       main_body (emit (EvChdir ["proj"]) (mkState project ["proj"] []))).
Proof.
  apply (main_enters_project_root (from_top project) ["proj"] "scripts" "process_logo.py" (File []));
    by_computation.
Defined.

End Examples.
